(** * Ships CLI (titanic.py): a shallow embedding and its properties

    The program is an interactive explorer over a list of ship-traffic
    records.  This development embeds [titanic.py] function by function:
    the string primitives the validator relies on, the insertion-ordered
    dictionary built by [analyze_traffic_data_by], Python's stable [sorted],
    the handlers with their console effects, and the read-eval-print loop.

    Conventions.
    - A Python [str] is a Rocq [string]; each [ascii] stands for the Unicode
      code point of the same number (the Latin-1 range, 0..255).
    - A Python [dict] is an association list in insertion order with unique
      keys; a Python [set] of strings is a [gset string].
    - A raised exception is a value of [exn]; pure code lives in [Result],
      code with console effects in [M]. *)

From Stdlib Require Import ZArith Lia Ascii String DecimalString.
From Stdlib Require OrderedTypeEx.
From stdpp Require Import base option list sorting gmap strings.

Local Open Scope string_scope.
Local Open Scope list_scope.
Local Open Scope Z_scope.

(** ** Module constants (titanic.py, lines 8-14) *)

Definition COUNTRY_KEY : string := "COUNTRY".
Definition TYPE_KEY : string := "TYPE_SUMMARY".
Definition SHIP_NAME_KEY : string := "SHIPNAME".
Definition SPEED_KEY : string := "SPEED".
Definition LONGITUDE_KEY : string := "LON".
Definition LATITUDE_KEY : string := "LAT".
Definition SEARCH_ACCURACY : nat := 85.

(** ** Exceptions and the pure error monad *)

Inductive exn : Type :=
| ValueError (msg : string)
| KeyError (key : string)
| TypeError
| IndexError
| EOFError
| StatisticsError.

Inductive Result (A : Type) : Type :=
| Ok (a : A)
| Raise (e : exn).
Arguments Ok {A} a.
Arguments Raise {A} e.

#[global] Instance Result_ret : MRet Result := fun A a => Ok a.
#[global] Instance Result_bind : MBind Result := fun A B f m =>
  match m with
  | Ok a => f a
  | Raise e => Raise e
  end.

(** ** Python string primitives

    Character classes follow the Unicode database restricted to code points
    below 256: [str.isspace] holds of TAB..CR, FS..US, SPACE, NEL and NBSP;
    [str.isnumeric] of the ten decimal digits, the superscripts 1, 2, 3 and
    the vulgar fractions 1/4, 1/2, 3/4; [str.isdecimal] of the decimal
    digits only. *)

Definition ord (c : ascii) : N := N_of_ascii c.

Definition isspace_char (c : ascii) : bool :=
  let n := ord c in
  ((9 <=? n) && (n <=? 13) || (28 <=? n) && (n <=? 32)
   || (n =? 133) || (n =? 160))%N.

Definition isdecimal_char (c : ascii) : bool :=
  let n := ord c in ((48 <=? n) && (n <=? 57))%N.

Definition isnumeric_char (c : ascii) : bool :=
  let n := ord c in
  (isdecimal_char c || (n =? 178) || (n =? 179) || (n =? 185)
   || (n =? 188) || (n =? 189) || (n =? 190))%N.

Fixpoint str_all (p : ascii -> bool) (s : string) : bool :=
  match s with
  | EmptyString => true
  | String c s' => p c && str_all p s'
  end.

(** [s.isnumeric()]: every character numeric and at least one character. *)
Definition isnumeric (s : string) : bool :=
  match s with
  | EmptyString => false
  | _ => str_all isnumeric_char s
  end.

Fixpoint lstrip (s : string) : string :=
  match s with
  | EmptyString => EmptyString
  | String c s' => if isspace_char c then lstrip s' else s
  end.

Fixpoint rstrip (s : string) : string :=
  match s with
  | EmptyString => EmptyString
  | String c s' =>
      match rstrip s' with
      | EmptyString => if isspace_char c then EmptyString else String c EmptyString
      | r => String c r
      end
  end.

(** [s.strip()] *)
Definition strip (s : string) : string := rstrip (lstrip s).

(** [s.startswith(p)] *)
Definition startswith (s p : string) : bool := String.prefix p s.

(** [sub in s] *)
Fixpoint str_in (sub s : string) : bool :=
  String.prefix sub s ||
  match s with
  | EmptyString => false
  | String _ s' => str_in sub s'
  end.

(** The maximal run of non-whitespace characters at the front of [s], and
    what follows it. *)
Fixpoint break_space (s : string) : string * string :=
  match s with
  | EmptyString => (EmptyString, EmptyString)
  | String c s' =>
      if isspace_char c then (EmptyString, s)
      else let '(tok, rest) := break_space s' in (String c tok, rest)
  end.

(** [s.split(maxsplit=n)] with the default separator: runs of whitespace
    separate the fields, at most [n] splits are made, and the last field is
    the rest of the string with its leading whitespace removed (trailing
    whitespace is kept), as in CPython's split_whitespace. *)
Fixpoint split (maxsplit : nat) (s : string) : list string :=
  match lstrip s with
  | EmptyString => []
  | r =>
      match maxsplit with
      | O => [r]
      | S m => let '(tok, rest) := break_space r in tok :: split m rest
      end
  end.

(** [str(n)] / the f-string rendering of a non-negative integer. *)
Definition str_of_nat (n : nat) : string :=
  NilEmpty.string_of_uint (Nat.to_uint n).

(** [repr(s)], as the error message of [int] shows the rejected text: single
    quotes, or double quotes when the text holds a single quote and no double
    quote; the quote in use and the backslash are escaped, TAB, LF and CR are
    written \t, \n and \r, and every other code point that is not printable
    (below 32, 127 to 160, and 173) as \x and two hexadecimal digits. *)
Definition isprintable_char (c : ascii) : bool :=
  let n := ord c in
  ((32 <=? n) && (n <? 127) || (161 <=? n) && negb (n =? 173))%N.

Definition hex_digit (n : N) : ascii :=
  if (n <? 10)%N then ascii_of_N (48 + n) else ascii_of_N (87 + n).

Definition repr_char (quote c : ascii) : string :=
  let n := ord c in
  if Ascii.eqb c quote || Ascii.eqb c "\"%char then String "\" (String c "")
  else if (n =? 9)%N then "\t"
  else if (n =? 10)%N then "\n"
  else if (n =? 13)%N then "\r"
  else if isprintable_char c then String c ""
  else String "\" (String "x" (String (hex_digit (n / 16)) (String (hex_digit (n mod 16)) ""))).

Fixpoint repr_chars (quote : ascii) (s : string) : string :=
  match s with
  | EmptyString => EmptyString
  | String c s' => repr_char quote c +:+ repr_chars quote s'
  end.

Definition repr (s : string) : string :=
  let quote : ascii :=
    if str_in "'" s && negb (str_in (String "034" "") s) then "034"%char else "'"%char in
  String quote (repr_chars quote s +:+ String quote "").

(** [int(s)] on a string, as CPython reads it in base 10: whitespace is
    skipped at both ends (TAB..CR, SPACE, NEL and NBSP; the separators FS..US,
    which [str.strip] removes, are not skipped), then come an optional sign
    and a run of decimal digits with single underscores between them.  A run
    of more than 4300 digits is refused with an error of its own, whatever
    follows it; any other text is an "invalid literal", shown by its [repr]
    cut to 200 characters.  Both are ValueErrors. *)
Definition INT_MAX_STR_DIGITS : nat := 4300.

Definition isspace_int_char (c : ascii) : bool :=
  let n := ord c in
  ((9 <=? n) && (n <=? 13) || (n =? 32) || (n =? 133) || (n =? 160))%N.

Fixpoint int_skip_space (s : string) : string :=
  match s with
  | EmptyString => EmptyString
  | String c s' => if isspace_int_char c then int_skip_space s' else s
  end.

(** The run of digits and underscores at the front of [s]: its value, the
    number of its digits and what follows it; [None] for two underscores in a
    row or an underscore at the end of the run. *)
Fixpoint int_run (after_underscore : bool) (acc : Z) (digits : nat) (s : string)
    : option (Z * nat * string) :=
  match s with
  | EmptyString => if after_underscore then None else Some (acc, digits, EmptyString)
  | String c s' =>
      if isdecimal_char c
      then int_run false (10 * acc + (Z.of_N (ord c) - 48)) (S digits) s'
      else if Ascii.eqb c "_"%char
           then if after_underscore then None else int_run true acc digits s'
           else if after_underscore then None else Some (acc, digits, s)
  end.

Definition int_literal (s : string) : exn :=
  ValueError ("invalid literal for int() with base 10: "
              +:+ String.substring 0 200 (repr s)).

Definition int_too_long (digits : nat) : exn :=
  ValueError ("Exceeds the limit (4300 digits) for integer string conversion: "
              +:+ "value has " +:+ str_of_nat digits
              +:+ " digits; use sys.set_int_max_str_digits() to increase the limit").

(** The optional sign: whether it is a minus, and the text after it. *)
Definition int_sign (body : string) : bool * string :=
  match body with
  | String "-" d => (true, d)
  | String "+" d => (false, d)
  | _ => (false, body)
  end.

(** The text after the sign: it begins with a digit, and nothing but
    whitespace follows the run. *)
Definition int_unsigned (s : string) (negative : bool) (body : string) : Result Z :=
  match body with
  | EmptyString => Raise (int_literal s)
  | String c _ =>
      if isdecimal_char c then
        match int_run false 0 0 body with
        | None => Raise (int_literal s)
        | Some (z, digits, rest) =>
            if (INT_MAX_STR_DIGITS <? digits)%nat then Raise (int_too_long digits)
            else match int_skip_space rest with
                 | EmptyString => Ok (if negative then - z else z)
                 | _ => Raise (int_literal s)
                 end
        end
      else Raise (int_literal s)
  end.

Definition int_str (s : string) : Result Z :=
  let '(negative, body) := int_sign (int_skip_space s) in
  int_unsigned s negative body.

(** [int(x)] where [x] is a string or [None] (the dispatcher's "no
    argument" value): [int(None)] is a TypeError. *)
Definition int (x : option string) : Result Z :=
  match x with
  | Some s => int_str s
  | None => Raise TypeError
  end.

(** ** Insertion-ordered dictionaries *)

Definition dict (V : Type) : Type := list (string * V).

(** [d.keys()], in iteration order *)
Definition keys {V} (d : dict V) : list string := d.*1.

(** [d.items()] *)
Definition items {V} (d : dict V) : list (string * V) := d.

(** [k in d] *)
Definition dict_in {V} (k : string) (d : dict V) : bool :=
  bool_decide (k ∈ keys d).

(** [d[k]] *)
Fixpoint dict_getitem {V} (d : dict V) (k : string) : Result V :=
  match d with
  | [] => Raise (KeyError k)
  | (k', v) :: d' => if decide (k = k') then Ok v else dict_getitem d' k
  end.

(** [d[k] = v]: an existing key keeps its position, a new key goes last. *)
Fixpoint dict_setitem {V} (k : string) (v : V) (d : dict V) : dict V :=
  match d with
  | [] => [(k, v)]
  | (k', v') :: d' =>
      if decide (k = k') then (k, v) :: d' else (k', v') :: dict_setitem k v d'
  end.

(** ** [sorted(iterable, key=..., reverse=...)]

    Python's [sorted] is stable, and with [reverse=True] elements that
    compare equal still keep their original order.  A stable sort has one
    possible output, computed here by insertion from the right. *)

Section sorted.
Context {A K : Type} (le : K -> K -> bool) (key : A -> K).

Definition goes_before (reverse : bool) (x y : A) : bool :=
  if reverse then le (key y) (key x) else le (key x) (key y).

Fixpoint sorted_insert (reverse : bool) (x : A) (l : list A) : list A :=
  match l with
  | [] => [x]
  | y :: l' =>
      if goes_before reverse x y then x :: l
      else y :: sorted_insert reverse x l'
  end.

Definition sorted (reverse : bool) (l : list A) : list A :=
  foldr (sorted_insert reverse) [] l.

(** The order of the output: ascending keys, or descending with
    [reverse]. *)
Definition in_order (reverse : bool) (x y : A) : Prop :=
  goes_before reverse x y = true.

End sorted.

(** ** Records, data sets and the aggregation (titanic.py, lines 125-137) *)

Abbreviation record := (gmap string string).

(** [ship[key]] *)
Definition getitem (ship : record) (key : string) : Result string :=
  match ship !! key with
  | Some v => Ok v
  | None => Raise (KeyError key)
  end.

(** One pass of the [for ship in traffic_data] body. *)
Definition analyze_step (by_key : string) (analyzed_dict : dict (gset string))
    (ship : record) : Result (dict (gset string)) :=
  k ← getitem ship by_key;
  let analyzed_dict :=
    if negb (dict_in k analyzed_dict)
    then dict_setitem k ∅ analyzed_dict
    else analyzed_dict in
  k ← getitem ship by_key;
  group ← dict_getitem analyzed_dict k;
  name ← getitem ship SHIP_NAME_KEY;
  Ok (dict_setitem k (group ∪ {[name]}) analyzed_dict).

Fixpoint analyze_loop (by_key : string) (analyzed_dict : dict (gset string))
    (traffic_data : list record) : Result (dict (gset string)) :=
  match traffic_data with
  | [] => Ok analyzed_dict
  | ship :: rest =>
      d ← analyze_step by_key analyzed_dict ship;
      analyze_loop by_key d rest
  end.

(** The function returns the dictionary itself, or, when [is_sorted], the
    list of its items sorted by descending group length; both are lists of
    (key, group) pairs here. *)
Definition analyze_traffic_data_by (traffic_data : list record)
    (by_key : string) (is_sorted : bool) : Result (list (string * gset string)) :=
  analyzed_dict ← analyze_loop by_key [] traffic_data;
  if is_sorted
  then Ok (sorted Nat.leb (fun x => size x.2) true (items analyzed_dict))
  else Ok analyzed_dict.

(** ** What the program takes from its libraries

    [float] parsing and [statistics.mean] (on non-empty data) work on
    floating-point numbers, [thefuzz]'s default scorer rates a candidate
    against a query, and a Python [set] is iterated in an order the language
    leaves open.  They are the fields of [Externals]; the program is embedded
    over an arbitrary instance. *)

Class Externals : Type := {
  float_t : Type;
  (** [float(s)]; a string that is no number is a ValueError *)
  float : string -> Result float_t;
  (** [statistics.mean(data)] for non-empty [data] *)
  fmean : list float_t -> float_t;
  (** thefuzz's default scorer (with its default processor): query, choice *)
  WRatio : string -> string -> nat;
  (** the order in which a set of strings is iterated *)
  set_iter : gset string -> list string;
  set_iter_perm : forall s, set_iter s ≡ₚ elements s;
}.

(** [process.extract(query, choices, limit=5)]: every choice is paired with
    its score, the pairs are ordered by descending score (the library's
    [heapq.nlargest], which is [sorted(..., reverse=True)[:limit]]), and the
    first [limit] are returned. *)
Definition process_extract `{Externals} (query : string)
    (choices : list string) (limit : nat) : list (string * nat) :=
  take limit
    (sorted Nat.leb snd true (map (fun c => (c, WRatio query c)) choices)).

Definition extract_default_limit : nat := 5.

(** [statistics.mean] *)
Definition statistics_mean `{Externals} (data : list float_t) : Result float_t :=
  match data with
  | [] => Raise StatisticsError
  | _ => Ok (fmean data)
  end.

(** [l[i]] on a list *)
Definition list_getitem {A} (l : list A) (i : nat) : Result A :=
  match l !! i with
  | Some x => Ok x
  | None => Raise IndexError
  end.

(** [l[:n]] *)
Definition slice_to {A} (l : list A) (n : Z) : list A :=
  if 0 <=? n then take (Z.to_nat n) l
  else take (length l - Z.to_nat (- n)) l.

(** ** The console and the files: the effect monad *)

Section program.
Context `{Externals}.

Record histogram : Type := {
  hist_data : list float_t;
  hist_bins : nat;
  hist_color : string;
}.

Inductive event : Type :=
| Print (text : string)
| Prompt (text : string)
| SaveFig (file : string) (figure : list histogram)
| SaveMap (file : string) (center : float_t * float_t)
    (markers : list (string * float_t * float_t)).

(** [stdin]: the lines still to be read; [trace]: what has been written, in
    order; [figure]: pyplot's current figure. *)
Record World : Type := {
  stdin : list string;
  trace : list event;
  figure : list histogram;
}.

Definition M (A : Type) : Type := World -> Result A * World.

#[local] Instance M_ret : MRet M := fun A a w => (Ok a, w).
#[local] Instance M_bind : MBind M := fun A B f m w =>
  match m w with
  | (Ok a, w') => f a w'
  | (Raise e, w') => (Raise e, w')
  end.

Definition lift {A} (r : Result A) : M A := fun w => (r, w).

Definition raise {A} (e : exn) : M A := fun w => (Raise e, w).

Definition emit (e : event) : M unit := fun w =>
  (Ok tt, {| stdin := stdin w; trace := trace w ++ [e]; figure := figure w |}).

(** [print(text)] *)
Definition print (text : string) : M unit := emit (Print text).

(** [input(prompt)]: the prompt, if any, is written; the next line is read;
    at the end of the input the call raises EOFError. *)
Definition readline : M string := fun w =>
  match stdin w with
  | [] => (Raise EOFError, w)
  | line :: rest =>
      (Ok line, {| stdin := rest; trace := trace w; figure := figure w |})
  end.

Definition input (prompt : option string) : M string :=
  mbind (M := M) (fun _ : unit => readline)
    (match prompt with
     | Some p => emit (Prompt p)
     | None => mret tt
     end).

(** [for x in l: body(x)] *)
Fixpoint for_each {A} (l : list A) (body : A -> M unit) : M unit :=
  match l with
  | [] => mret tt
  | x :: l' => _ ← body x; for_each l' body
  end.

(** ** Assisting functions (titanic.py, lines 140-169) *)

(** [print_iterable(iterable)], the [value=False] loop, on an iterable of
    strings. *)
Definition print_iterable (iterable : list string) : M unit :=
  _ ← for_each iterable print;
  print "".

(** [print_iterable(iterable, value=True)], the other loop, on an iterable
    of (key, set) pairs. *)
Definition print_iterable_value (iterable : list (string * gset string)) : M unit :=
  _ ← for_each iterable
        (fun '(key, val) => print (key +:+ ": " +:+ str_of_nat (size val)));
  print "".

Definition get_valid_action {V} (dispatcher : dict V) : M (string * option string) :=
  line ← input None;
  let action := strip line in
  if bool_decide (action = "") then raise (ValueError "Empty input")
  else if str_in " " action && startswith action "top_countries" then
    let action := split 1 action in
    param ← lift (list_getitem action 1);
    if negb (isnumeric param) then
      _ ← print ("Unknown parameter " +:+ param);
      raise (ValueError "Parameter is not integer")
    else
      a0 ← lift (list_getitem action 0);
      a1 ← lift (list_getitem action 1);
      mret (a0, Some a1)
  else if negb (dict_in action dispatcher) || bool_decide (action = "top_countries") then
    _ ← print ("Unknown command " +:+ action);
    raise (ValueError "Command is not in dispatcher")
  else mret (action, None).

(** ** Dispatch actions (titanic.py, lines 18-104) *)

Definition print_functions (dispatch_dict : list string) : M unit :=
  _ ← print (String "010" "Available commands:");
  _ ← for_each dispatch_dict (fun func =>
        if bool_decide (func = "top_countries")
        then print (func +:+ " " +:+ " <num_countries>")
        else print func);
  print "".

Definition get_all_countries (traffic_data : list record) : M unit :=
  countries_data ← lift (analyze_traffic_data_by traffic_data COUNTRY_KEY false);
  let sorted_countries := sorted String.leb id false (keys countries_data) in
  print_iterable sorted_countries.

(** [num] is [None] when the caller leaves the argument out; the default
    is 5. *)
Definition top_n_countries (traffic_data : list record) (num : option Z) : M unit :=
  let num := default 5 num in
  countries_data ← lift (analyze_traffic_data_by traffic_data COUNTRY_KEY true);
  print_iterable_value (slice_to countries_data num).

Definition get_all_ship_types (traffic_data : list record) : M unit :=
  type_data ← lift (analyze_traffic_data_by traffic_data TYPE_KEY true);
  print_iterable_value type_data.

(** [{ship[SHIP_NAME_KEY] for ship in traffic_data}] *)
Definition ships_names_of (traffic_data : list record) : Result (gset string) :=
  names ← mapM (fun ship => getitem ship SHIP_NAME_KEY) traffic_data;
  Ok (list_to_set names).

(** The list comprehension over [process.extract(search_key, ships_names)]. *)
Definition search_results (search_key : string) (ships_names : gset string) : list string :=
  (filter (fun p => SEARCH_ACCURACY < p.2)%nat
     (process_extract search_key (set_iter ships_names) extract_default_limit)).*1.

Definition search_ship_by_name (traffic_data : list record) : M unit :=
  ships_names ← lift (ships_names_of traffic_data);
  search_key ← input (Some "Enter the search query: ");
  let search_results := search_results search_key ships_names in
  match search_results with
  | _ :: _ =>
      _ ← print "Did you mean any of these?";
      print_iterable search_results
  | [] => print "No results found"
  end.

Definition save_speed_histogram (traffic_data : list record) : M unit :=
  file_name ← input (Some "What's the file name should be? ");
  all_ships_speed ← lift (mapM (fun ship => getitem ship SPEED_KEY ≫= float) traffic_data);
  _ ← (fun w => (Ok tt,
        {| stdin := stdin w; trace := trace w;
           figure := figure w ++ [{| hist_data := all_ships_speed;
                                     hist_bins := 14; hist_color := "green" |}] |}));
  _ ← (fun w => emit (SaveFig (file_name +:+ ".png") (figure w)) w);
  print ("The ship speed histogram was saved as " +:+ file_name +:+ ".png").

Definition draw_plot_map (traffic_data : list record) : M unit :=
  ship_locations ← lift (mapM (fun ship : record =>
      name ← getitem ship SHIP_NAME_KEY;
      lat ← getitem ship LATITUDE_KEY ≫= float;
      lon ← getitem ship LONGITUDE_KEY ≫= float;
      Ok (name, lat, lon)) traffic_data);
  mean_lat ← lift (mapM (fun ship => getitem ship LATITUDE_KEY ≫= float) traffic_data
                   ≫= statistics_mean);
  mean_lon ← lift (mapM (fun ship => getitem ship LONGITUDE_KEY ≫= float) traffic_data
                   ≫= statistics_mean);
  emit (SaveMap "ship_map.html" (mean_lat, mean_lon) ship_locations).

(** ** The dispatch table and the main loop (titanic.py, lines 107-185) *)

Definition handler : Type := list record -> option string -> M unit.

Definition DISPATCH_KEYS : list string :=
  ["help"; "show_countries"; "top_countries"; "ships_by_types";
   "search_ship"; "speed_histogram"; "draw_map"].

Definition DISPATCH_DICT : dict handler :=
  [("help", fun _ _ => print_functions DISPATCH_KEYS);
   ("show_countries", fun data_dict _ => get_all_countries data_dict);
   ("top_countries", fun data_dict num =>
      n ← lift (int num); top_n_countries data_dict (Some n));
   ("ships_by_types", fun data_dict _ => get_all_ship_types data_dict);
   ("search_ship", fun data_dict _ => search_ship_by_name data_dict);
   ("speed_histogram", fun data_dict _ => save_speed_histogram data_dict);
   ("draw_map", fun data_dict _ => draw_plot_map data_dict)].

(** One turn of [while True]: a ValueError of the validator is caught and
    the turn ends ([continue]); every other exception, and every exception
    of the dispatched handler, leaves the loop. *)
Definition main_body (all_data : list record) : M unit := fun w =>
  match get_valid_action DISPATCH_DICT w with
  | (Raise (ValueError _), w') => (Ok tt, w')
  | (Raise e, w') => (Raise e, w')
  | (Ok (action, param), w') =>
      (h ← lift (dict_getitem DISPATCH_DICT action); h all_data param) w'
  end.

(** The loop has no exit of its own: it ends when an exception leaves it.
    [None] means the turns allowed by [fuel] were all completed. *)
Fixpoint main_loop (fuel : nat) (all_data : list record) (w : World) : option (exn * World) :=
  match fuel with
  | O => None
  | S n =>
      match main_body all_data w with
      | (Ok _, w') => main_loop n all_data w'
      | (Raise e, w') => Some (e, w')
      end
  end.

Definition main (fuel : nat) (all_data : list record) : World -> option (exn * World) :=
  fun w =>
    match print ("Welcome to the Ships CLI! Enter 'help' to view available commands."
                 +:+ String "010" "") w with
    | (_, w') => main_loop fuel all_data w'
    end.

End program.

(** * Reference notions used by the statements *)

(** [x] occurs in [l] at some position before an occurrence of [y]. *)
Definition precedes {A} (x y : A) (l : list A) : Prop :=
  exists l1 l2 l3, l = l1 ++ x :: l2 ++ y :: l3.

(** The world after [events] have been written. *)
Definition written `{Externals} (w : World) (events : list event) : World :=
  {| stdin := stdin w; trace := trace w ++ events; figure := figure w |}.

(** The line printed for a (key, group) pair. *)
Definition count_line `{Externals} (p : string * gset string) : event :=
  Print (p.1 +:+ ": " +:+ str_of_nat (size p.2)).

(** The candidates with their scores, in descending order of score. *)
Definition scoreboard `{Externals} (q : string) (names : gset string) : list (string * nat) :=
  sorted Nat.leb snd true ((fun c => (c, WRatio q c)) <$> set_iter names).

(** The values of a list in the order of their first occurrence. *)
Fixpoint first_seen (l : list string) : list string :=
  match l with
  | [] => []
  | x :: l' => x :: filter (fun y => y <> x) (first_seen l')
  end.

(** The field values of a data set, in record order. *)
Definition field_values (by_key : string) (traffic_data : list record) : list string :=
  omap (fun ship : record => ship !! by_key) traffic_data.

(** A record that carries [key]. *)
Definition has_key (key : string) (ship : record) : Prop :=
  is_Some (ship !! key).

(** What one pass of the aggregation loop amounts to on a record with
    field value [k] and ship name [n]. *)
Fixpoint group_add (k n : string) (d : dict (gset string)) : dict (gset string) :=
  match d with
  | [] => [(k, {[n]})]
  | (k', g) :: d' =>
      if decide (k = k') then (k, g ∪ {[n]}) :: d' else (k', g) :: group_add k n d'
  end.

(** The (field value, ship name) pair a record contributes. *)
Definition entry_of (by_key : string) (ship : record) (p : string * string) : Prop :=
  ship !! by_key = Some p.1 /\ ship !! SHIP_NAME_KEY = Some p.2.

Definition add_entry (d : dict (gset string)) (p : string * string) : dict (gset string) :=
  group_add p.1 p.2 d.

(** Keeping track of the values seen so far: a new one goes last. *)
Definition note_key (ks : list string) (k : string) : list string :=
  if decide (k ∈ ks) then ks else ks ++ [k].

(** ** Notions for the handlers and the loop *)

(** The line [print_functions] writes for a command name. *)
Definition help_line (func : string) : string :=
  if bool_decide (func = "top_countries") then func +:+ " " +:+ " <num_countries>"
  else func.

(** The histogram [save_speed_histogram] draws from a list of speeds. *)
Definition speed_histogram `{Externals} (speeds : list float_t) : histogram :=
  {| hist_data := speeds; hist_bins := 14; hist_color := "green" |}.

(** The field [key] of [ship] is present and [float] reads it as [v]. *)
Definition float_field `{Externals} (key : string) (ship : record) (v : float_t) : Prop :=
  exists s, ship !! key = Some s /\ float s = Ok v.

(** The marker [draw_plot_map] sets for a record. *)
Definition marker_of `{Externals} (ship : record)
    (m : string * float_t * float_t) : Prop :=
  ship !! SHIP_NAME_KEY = Some m.1.1
  /\ float_field LATITUDE_KEY ship m.1.2
  /\ float_field LONGITUDE_KEY ship m.2.

(** A record with every field the handlers read: the two grouping fields,
    the name, and a speed, a latitude and a longitude that [float]
    accepts. *)
Definition well_formed `{Externals} (ship : record) : Prop :=
  has_key COUNTRY_KEY ship /\ has_key TYPE_KEY ship
  /\ (exists m, marker_of ship m) /\ (exists v, float_field SPEED_KEY ship v).

(** [w'] comes after [w]: lines have only been read, and the output and the
    figure have only grown. *)
Definition extends `{Externals} (w w' : World) : Prop :=
  stdin w' `suffix_of` stdin w /\ trace w `prefix_of` trace w'
  /\ figure w `prefix_of` figure w'.

(** A computation that only moves the world forward. *)
Definition forward `{Externals} {A} (m : M A) : Prop :=
  forall w r w', m w = (r, w') -> extends w w'.

(** The greeting of [main]. *)
Definition welcome : string :=
  "Welcome to the Ships CLI! Enter 'help' to view available commands."
  +:+ String "010" "".

(** * A concrete instance and a small data set, to run the embedding *)

Definition lower_char (c : ascii) : ascii :=
  let n := ord c in
  if ((65 <=? n) && (n <=? 90))%N then ascii_of_N (n + 32) else c.

Fixpoint lower (s : string) : string :=
  match s with
  | EmptyString => EmptyString
  | String c s' => String (lower_char c) (lower s')
  end.

(** A scorer that rates a candidate 100 when it equals the query up to
    letter case and 0 otherwise (thefuzz's scorer agrees with it on such
    pairs of non-empty alphanumeric strings). *)
Definition caseless_ratio (query choice : string) : nat :=
  if decide (lower query = lower choice) then 100%nat else 0%nat.

(** Integers for floats, and sets iterated in the order of [elements]. *)
Definition demo_externals : Externals := {|
  float_t := Z;
  float := int_str;
  fmean := fun data => foldr Z.add 0 data `div` Z.of_nat (length data);
  WRatio := caseless_ratio;
  set_iter := elements;
  set_iter_perm := fun s => reflexivity (elements s);
|}.

Definition ship (country type name : string) : record :=
  {[ COUNTRY_KEY := country; TYPE_KEY := type; SHIP_NAME_KEY := name;
     SPEED_KEY := "12"; LATITUDE_KEY := "50"; LONGITUDE_KEY := "4" ]}.

(** DE has one ship, UK and FR three each (UK met first), US five; one US
    record is repeated. *)
Definition demo_data : list record :=
  [ship "DE" "Cargo" "ELBE"; ship "UK" "Tanker" "AVON"; ship "FR" "Cargo" "LOIRE";
   ship "US" "Cargo" "OHIO"; ship "UK" "Cargo" "TYNE"; ship "US" "Tanker" "HUDSON";
   ship "FR" "Tug" "SEINE"; ship "US" "Cargo" "YUKON"; ship "UK" "Tug" "TRENT";
   ship "FR" "Cargo" "RHONE"; ship "US" "Cargo" "PECOS"; ship "US" "Tug" "OHIO";
   ship "US" "Tug" "MAUMEE"].

(** A console on which [lines] are still to be typed. *)
Definition console (lines : list string) : @World demo_externals :=
  {| stdin := lines; trace := []; figure := [] |}.

(** What [search_ship_by_name] writes for a list of results. *)
Definition search_report `{Externals} (results : list string) : list event :=
  match results with
  | [] => [Print "No results found"]
  | _ => Print "Did you mean any of these?" :: (Print <$> results) ++ [Print ""]
  end.

(** Six spellings of one name: all of them rate 100 against "titanic". *)
Definition six_titanics : gset string :=
  {[ "TITANIC"; "Titanic"; "titanic"; "TItanic"; "TITanic"; "TITAnic" ]}.

(** A string of whitespace only. *)
Definition blank (s : string) : bool := str_all isspace_char s.

(** Every non-empty suffix of [s] holds a character that is no whitespace:
    [s] has no trailing whitespace. *)
Fixpoint no_blank_tail (s : string) : bool :=
  match s with
  | EmptyString => true
  | String _ s' => negb (blank s) && no_blank_tail s'
  end.

(** Code points below 128. *)
Definition isascii (s : string) : bool := str_all (fun c => (ord c <? 128)%N) s.

(** [get_valid_action] after the line has been read: the world it leaves. *)
Definition line_read `{Externals} (rest : list string) (tr : list event)
    (fig : list histogram) : World :=
  {| stdin := rest; trace := tr; figure := fig |}.

(** The markers of the demo data set under [demo_externals]. *)
Definition demo_markers : list (string * Z * Z) :=
  (fun name => (name, 50, 4))
    <$> ["ELBE"; "AVON"; "LOIRE"; "OHIO"; "TYNE"; "HUDSON"; "SEINE"; "YUKON";
         "TRENT"; "RHONE"; "PECOS"; "OHIO"; "MAUMEE"].

(** * Properties *)

(** Closed runs are settled by evaluation: the two sides of the equation are
    compared by the virtual machine, without normalising the statement. *)
Ltac run :=
  lazymatch goal with
  | |- ?l = ?r => exact (@eq_refl _ r <: (l = r))
  end.

(** ** The stable sort *)

Section sorted_facts.
Context {A K : Type} `{EqDecision K} (le : K -> K -> bool) (key : A -> K).
Hypothesis le_total : forall a b, le a b = true \/ le b a = true.
Hypothesis le_trans : forall a b c, le a b = true -> le b c = true -> le a c = true.

Lemma le_refl a : le a a = true.
Proof. by destruct (le_total a a). Qed.

Lemma in_order_total reverse x y :
  goes_before le key reverse x y = false -> in_order le key reverse y x.
Proof.
  unfold in_order, goes_before. destruct reverse; intros Hf.
  - destruct (le_total (key y) (key x)); congruence.
  - destruct (le_total (key x) (key y)); congruence.
Qed.

Lemma in_order_trans reverse x y z :
  in_order le key reverse x y -> in_order le key reverse y z -> in_order le key reverse x z.
Proof. unfold in_order, goes_before. destruct reverse; eauto. Qed.

Lemma sorted_insert_Permutation reverse x l :
  sorted_insert le key reverse x l ≡ₚ x :: l.
Proof.
  induction l as [|y l IH]; simpl; [done|].
  destruct (goes_before le key reverse x y); [done|].
  rewrite IH. apply Permutation_swap.
Qed.

Lemma sorted_Permutation reverse l : sorted le key reverse l ≡ₚ l.
Proof.
  induction l as [|x l IH]; simpl; [done|].
  unfold sorted in *. simpl. by rewrite sorted_insert_Permutation, IH.
Qed.

Lemma sorted_insert_StronglySorted reverse x l :
  StronglySorted (in_order le key reverse) l ->
  StronglySorted (in_order le key reverse) (sorted_insert le key reverse x l).
Proof.
  induction 1 as [|y l Hl IH Hy]; simpl.
  - repeat constructor.
  - destruct (goes_before le key reverse x y) eqn:Hxy.
    + constructor; [by constructor|].
      constructor; [done|].
      eapply Forall_impl; [exact Hy|].
      intros z Hz. by eapply in_order_trans.
    + constructor; [done|].
      rewrite sorted_insert_Permutation. constructor; [|done].
      by apply in_order_total.
Qed.

Lemma sorted_StronglySorted reverse l :
  StronglySorted (in_order le key reverse) (sorted le key reverse l).
Proof.
  induction l as [|x l IH]; [constructor|].
  by apply sorted_insert_StronglySorted.
Qed.

(** Stability: the elements that share a key come out in the order they
    went in. *)
Lemma sorted_insert_stable reverse k x l :
  filter (fun y => key y = k) (sorted_insert le key reverse x l)
  = filter (fun y => key y = k) (x :: l).
Proof.
  induction l as [|y l IH]; simpl; [done|].
  destruct (goes_before le key reverse x y) eqn:Hxy; [done|].
  rewrite (filter_cons _ y), IH, !filter_cons.
  destruct (decide (key x = k)) as [Hx|]; [|done].
  destruct (decide (key y = k)) as [Hy|]; [|done].
  exfalso. unfold goes_before in Hxy.
  rewrite Hx, Hy in Hxy. destruct reverse; by rewrite le_refl in Hxy.
Qed.

Lemma sorted_stable reverse k l :
  filter (fun y => key y = k) (sorted le key reverse l)
  = filter (fun y => key y = k) l.
Proof.
  induction l as [|x l IH]; [done|].
  change (sorted le key reverse (x :: l))
    with (sorted_insert le key reverse x (sorted le key reverse l)).
  by rewrite sorted_insert_stable, !filter_cons, IH.
Qed.

End sorted_facts.

(** ** Relative order of two elements of a list *)

Section precedes_facts.
Context {A : Type}.
Implicit Types (x y z : A) (l : list A).

Lemma precedes_cons x y z l : precedes x y l -> precedes x y (z :: l).
Proof. intros (l1 & l2 & l3 & ->). by exists (z :: l1), l2, l3. Qed.

Lemma precedes_head x y l : y ∈ l -> precedes x y (x :: l).
Proof.
  intros (l2 & l3 & ->)%list_elem_of_split. by exists [], l2, l3.
Qed.

Lemma precedes_cons_inv x y z l :
  precedes x y (z :: l) -> (z = x /\ y ∈ l) \/ precedes x y l.
Proof.
  intros ([|z' l1] & l2 & l3 & Heq); simplify_eq/=.
  - left. split; [done|]. apply elem_of_app. right. left.
  - right. by exists l1, l2, l3.
Qed.

Lemma precedes_filter (P : A -> Prop) `{!forall a, Decision (P a)} x y l :
  P x -> P y -> precedes x y l -> precedes x y (filter P l).
Proof.
  intros Hx Hy (l1 & l2 & l3 & ->).
  exists (filter P l1), (filter P l2), (filter P l3).
  rewrite filter_app, filter_cons_True, filter_app, filter_cons_True; done.
Qed.

Lemma filter_precedes (P : A -> Prop) `{!forall a, Decision (P a)} x y l :
  precedes x y (filter P l) -> precedes x y l.
Proof.
  induction l as [|z l IH]; simpl.
  - intros ([|??] & ? & ? & ?); simplify_eq/=.
  - rewrite filter_cons. destruct (decide (P z)).
    + intros [[-> Hy]|Hp]%precedes_cons_inv.
      * apply precedes_head. by apply list_elem_of_filter in Hy as [_ ?].
      * by apply precedes_cons, IH.
    + intros Hp. by apply precedes_cons, IH.
Qed.

End precedes_facts.

Section sorted_pairwise.
Context {A K : Type} `{EqDecision K} (le : K -> K -> bool) (key : A -> K).
Hypothesis le_total : forall a b, le a b = true \/ le b a = true.

(** Two elements with equal keys keep their relative order. *)
Lemma sorted_keeps_ties reverse x y l :
  key x = key y ->
  precedes x y (sorted le key reverse l) <-> precedes x y l.
Proof.
  intros Hxy. split; intros Hp.
  - apply (filter_precedes (fun z => key z = key x)).
    rewrite <- (sorted_stable le key le_total reverse).
    by apply precedes_filter.
  - apply (filter_precedes (fun z => key z = key x)).
    rewrite (sorted_stable le key le_total reverse).
    by apply precedes_filter.
Qed.

End sorted_pairwise.

(** ** Dictionaries *)

Section dict_facts.
Context {V : Type}.
Implicit Types (d : dict V) (k : string) (v : V).

Lemma dict_in_true k d : dict_in k d = true <-> k ∈ keys d.
Proof. unfold dict_in. apply bool_decide_eq_true. Qed.

Lemma dict_in_false k d : dict_in k d = false <-> k ∉ keys d.
Proof. unfold dict_in. apply bool_decide_eq_false. Qed.

Lemma dict_getitem_setitem k v d :
  dict_getitem (dict_setitem k v d) k = Ok v.
Proof.
  induction d as [|[k' v'] d IH]; simpl.
  - by rewrite decide_True.
  - destruct (decide (k = k')) as [->|Hne]; simpl.
    + by rewrite decide_True.
    + by rewrite decide_False.
Qed.

Lemma dict_setitem_setitem k v1 v2 d :
  dict_setitem k v2 (dict_setitem k v1 d) = dict_setitem k v2 d.
Proof.
  induction d as [|[k' v'] d IH]; simpl.
  - by rewrite decide_True.
  - destruct (decide (k = k')) as [->|Hne]; simpl.
    + by rewrite decide_True.
    + by rewrite decide_False, IH.
Qed.

Lemma dict_getitem_Ok k v d : dict_getitem d k = Ok v -> (k, v) ∈ d.
Proof.
  induction d as [|[k' v'] d IH]; simpl; [done|].
  destruct (decide (k = k')) as [->|Hne].
  - intros [= ->]. left.
  - intros ?. right. auto.
Qed.

Lemma dict_getitem_in k d : k ∈ keys d -> exists v, dict_getitem d k = Ok v.
Proof.
  induction d as [|[k' v'] d IH]; simpl.
  - by intros ?%elem_of_nil.
  - destruct (decide (k = k')) as [->|Hne]; [eauto|].
    intros [?|?]%elem_of_cons; [done|auto].
Qed.

Lemma dict_getitem_unique k v d :
  NoDup (keys d) -> (k, v) ∈ d -> dict_getitem d k = Ok v.
Proof.
  induction d as [|[k' v'] d IH]; simpl.
  - by intros _ ?%elem_of_nil.
  - intros [Hk' Hd]%NoDup_cons [[= -> ->]|Hin]%elem_of_cons.
    + by rewrite decide_True.
    + rewrite decide_False; [auto|].
      intros ->. apply Hk'. unfold keys. apply list_elem_of_fmap.
      by exists (k', v).
Qed.

End dict_facts.

(** ** The aggregation loop *)

Section aggregation.
Implicit Types (d : dict (gset string)) (k n : string) (ship : record).

Lemma group_add_setitem k n d :
  match dict_getitem d k with
  | Ok g => dict_setitem k (g ∪ {[n]}) d = group_add k n d
  | Raise _ => dict_setitem k {[n]} d = group_add k n d
  end.
Proof.
  induction d as [|[k' g'] d IH]; simpl; [done|].
  destruct (decide (k = k')) as [->|Hne]; [done|].
  destruct (dict_getitem d k); by rewrite IH.
Qed.

Lemma dict_getitem_not_in {V} k (d : dict V) :
  k ∉ keys d -> dict_getitem d k = Raise (KeyError k).
Proof.
  induction d as [|[k' v'] d IH]; simpl; [done|].
  intros [Hne Hd]%not_elem_of_cons. by rewrite decide_False; auto.
Qed.

(** A record with both fields adds its name to the group of its value. *)
Lemma analyze_step_group_add by_key d ship k n :
  ship !! by_key = Some k -> ship !! SHIP_NAME_KEY = Some n ->
  analyze_step by_key d ship = Ok (group_add k n d).
Proof.
  intros Hk Hn. unfold analyze_step, getitem. rewrite Hk, Hn. simpl.
  destruct (dict_in k d) eqn:Hin; simpl.
  - apply dict_in_true, dict_getitem_in in Hin as [g Hg].
    rewrite Hg. simpl. f_equal.
    pose proof (group_add_setitem k n d) as Hs. by rewrite Hg in Hs.
  - apply dict_in_false in Hin.
    rewrite dict_getitem_setitem. simpl. f_equal.
    rewrite dict_setitem_setitem, (left_id_L ∅ (∪)).
    pose proof (group_add_setitem k n d) as Hs.
    by rewrite dict_getitem_not_in in Hs.
Qed.

(** A record without the grouping field, or without a name, stops the
    loop with a KeyError. *)
Lemma analyze_step_KeyError by_key d ship :
  ship !! by_key = None -> analyze_step by_key d ship = Raise (KeyError by_key).
Proof. intros Hk. unfold analyze_step, getitem. by rewrite Hk. Qed.

Lemma analyze_loop_foldl by_key d traffic_data ps :
  Forall2 (entry_of by_key) traffic_data ps ->
  analyze_loop by_key d traffic_data = Ok (foldl add_entry d ps).
Proof.
  intros Hps. revert d.
  induction Hps as [|ship [k n] data ps [Hk Hn] _ IH]; intros d; simpl; [done|].
  rewrite (analyze_step_group_add _ _ _ k n) by done. apply IH.
Qed.

Lemma entries_exist by_key traffic_data :
  Forall (fun ship => has_key by_key ship /\ has_key SHIP_NAME_KEY ship) traffic_data ->
  exists ps, Forall2 (entry_of by_key) traffic_data ps.
Proof.
  induction 1 as [|ship data [[k Hk] [n Hn]] _ [ps IH]].
  - by exists [].
  - exists ((k, n) :: ps). by constructor.
Qed.

Lemma entries_fst by_key traffic_data ps :
  Forall2 (entry_of by_key) traffic_data ps ->
  field_values by_key traffic_data = ps.*1.
Proof.
  unfold field_values.
  induction 1 as [|ship [k n] data ps [Hk Hn] _ IH]; simpl in *; [done|].
  rewrite Hk. simpl. by f_equal.
Qed.

Lemma entries_snd by_key traffic_data ps :
  Forall2 (entry_of by_key) traffic_data ps ->
  field_values SHIP_NAME_KEY traffic_data = ps.*2.
Proof.
  unfold field_values.
  induction 1 as [|ship [k n] data ps [Hk Hn] _ IH]; simpl in *; [done|].
  rewrite Hn. simpl. by f_equal.
Qed.

Lemma entries_elem_of by_key traffic_data ps k n :
  Forall2 (entry_of by_key) traffic_data ps ->
  (k, n) ∈ ps <->
  exists ship, ship ∈ traffic_data /\ ship !! by_key = Some k
               /\ ship !! SHIP_NAME_KEY = Some n.
Proof.
  induction 1 as [|ship [k' n'] data ps [Hk Hn] _ IH]; simpl in *.
  - split; [by intros ?%elem_of_nil|by intros (? & ?%elem_of_nil & _)].
  - rewrite elem_of_cons, IH. split.
    + intros [[= -> ->]|(s & ? & ? & ?)]; [exists ship|exists s];
        (split; [|done]); [left|by right].
    + intros (s & [->|?]%elem_of_cons & Hk' & Hn'); [left|right; eauto].
      congruence.
Qed.

(** Keys: a new value goes last, a known one changes nothing. *)
Lemma keys_group_add k n d :
  keys (group_add k n d) = if decide (k ∈ keys d) then keys d else keys d ++ [k].
Proof.
  unfold keys. induction d as [|[k' g'] d IH]; csimpl; [done|].
  destruct (decide (k = k')) as [->|Hne]; csimpl.
  - rewrite decide_True; [done|left].
  - rewrite IH. destruct (decide (k ∈ d.*1)).
    + rewrite decide_True; [done|by right].
    + rewrite decide_False; [done|]. rewrite elem_of_cons. tauto.
Qed.

Lemma keys_foldl_note d ps :
  keys (foldl add_entry d ps) = foldl note_key (keys d) ps.*1.
Proof.
  revert d. induction ps as [|[k n] ps IH]; intros d; csimpl; [done|].
  rewrite IH. unfold add_entry at 1. simpl. by rewrite (keys_group_add k n d).
Qed.

Lemma foldl_note_key ks l :
  foldl note_key ks l = ks ++ filter (fun y => y ∉ ks) (first_seen l).
Proof.
  revert ks. induction l as [|k l IH]; intros ks; simpl.
  - by rewrite app_nil_r.
  - rewrite IH. unfold note_key. destruct (decide (k ∈ ks)) as [Hin|Hin].
    + rewrite filter_cons_False by (by intros []).
      rewrite list_filter_filter. f_equal.
      apply list_filter_iff. intros y. split; [|tauto].
      intros Hy. split; [done|]. by intros ->.
    + rewrite filter_cons_True by done.
      rewrite list_filter_filter, <- app_assoc. simpl. do 2 f_equal.
      apply list_filter_iff. intros y.
      rewrite elem_of_app, list_elem_of_singleton. tauto.
Qed.

Lemma first_seen_elem_of x l : x ∈ first_seen l <-> x ∈ l.
Proof.
  induction l as [|y l IH]; simpl; [done|].
  rewrite !elem_of_cons, list_elem_of_filter, IH.
  destruct (decide (x = y)); tauto.
Qed.

Lemma first_seen_NoDup l : NoDup (first_seen l).
Proof.
  induction l as [|y l IH]; simpl; constructor.
  - rewrite list_elem_of_filter. tauto.
  - by apply NoDup_filter.
Qed.

Lemma keys_foldl_nil ps : keys (foldl add_entry [] ps) = first_seen ps.*1.
Proof.
  rewrite keys_foldl_note, foldl_note_key. simpl.
  induction (first_seen ps.*1) as [|y l IH]; [done|].
  rewrite filter_cons_True by (by intros ?%elem_of_nil). by rewrite IH.
Qed.

(** Members: a name is in the group of [k'] afterwards exactly when it was
    before or it is the name just added under [k']. *)
Lemma group_add_member k n d k' n' :
  (exists g, (k', g) ∈ group_add k n d /\ n' ∈ g)
  <-> (exists g, (k', g) ∈ d /\ n' ∈ g) \/ (k' = k /\ n' = n).
Proof.
  induction d as [|[k0 g0] d IH]; simpl.
  - split.
    + intros (g & [= -> ->]%list_elem_of_singleton & ->%elem_of_singleton). auto.
    + intros [(g & ?%elem_of_nil & _)|[-> ->]]; [done|].
      exists {[n]}. split; [left|by apply elem_of_singleton].
  - destruct (decide (k = k0)) as [->|Hne].
    + split.
      * intros (g & [[= -> ->]|Hin]%elem_of_cons & Hn).
        -- apply elem_of_union in Hn as [Hn| ->%elem_of_singleton]; [|auto].
           left. exists g0. split; [left|done].
        -- left. exists g. split; [by right|done].
      * intros [(g & [[= -> ->]|Hin]%elem_of_cons & Hn)|[-> ->]].
        -- exists (g0 ∪ {[n]}). split; [left|]. apply elem_of_union. by left.
        -- exists g. split; [by right|done].
        -- exists (g0 ∪ {[n]}). split; [left|].
           apply elem_of_union. right. by apply elem_of_singleton.
    + split.
      * intros (g & [[= -> ->]|Hin]%elem_of_cons & Hn).
        -- left. exists g0. split; [left|done].
        -- destruct (proj1 IH) as [(g' & ? & ?)|?]; [eauto| |auto].
           left. exists g'. split; [by right|done].
      * intros [(g & [[= -> ->]|Hin]%elem_of_cons & Hn)|[-> ->]].
        -- exists g0. split; [left|done].
        -- destruct (proj2 IH) as (g' & ? & ?); [eauto|].
           exists g'. split; [by right|done].
        -- destruct (proj2 IH) as (g' & ? & ?); [auto|].
           exists g'. split; [by right|done].
Qed.

Lemma foldl_add_member d ps k n :
  (exists g, (k, g) ∈ foldl add_entry d ps /\ n ∈ g)
  <-> (exists g, (k, g) ∈ d /\ n ∈ g) \/ (k, n) ∈ ps.
Proof.
  revert d. induction ps as [|[k0 n0] ps IH]; intros d; simpl.
  - split; [auto|]. by intros [?|?%elem_of_nil].
  - rewrite IH. unfold add_entry at 1. simpl.
    rewrite group_add_member, elem_of_cons. split.
    + intros [[?|[-> ->]]|?]; auto.
    + intros [?|[[= -> ->]|?]]; auto.
Qed.

End aggregation.

(** ** Aggregation (titanic.py, lines 125-137) *)

Lemma demo_data_has_keys by_key :
  by_key ∈ [COUNTRY_KEY; TYPE_KEY; SHIP_NAME_KEY] ->
  Forall (fun ship => has_key by_key ship /\ has_key SHIP_NAME_KEY ship) demo_data.
Proof.
  intros Hk. repeat apply elem_of_cons in Hk as [->|Hk];
    [| | |by apply elem_of_nil in Hk];
    repeat constructor; eexists; vm_compute; reflexivity.
Defined.

(** C1. On a data set whose records all carry the grouping field and the
    ship name, [analyze_traffic_data_by] returns a dictionary whose keys are
    the field values in the order of their first occurrence, each key mapped
    to the set of the names of the records with that value; the union of the
    groups is the set of all names, the empty data set gives the empty
    dictionary, and the empty string is a key like any other. *)
Theorem analyze_groups_in_first_seen_order (traffic_data : list record) (by_key : string) :
  Forall (fun ship => has_key by_key ship /\ has_key SHIP_NAME_KEY ship) traffic_data ->
  exists d,
    analyze_traffic_data_by traffic_data by_key false = Ok d
    /\ keys d = first_seen (field_values by_key traffic_data)
    /\ NoDup (keys d)
    /\ (forall k g, (k, g) ∈ d -> forall n,
          n ∈ g <-> exists ship, ship ∈ traffic_data /\ ship !! by_key = Some k
                                 /\ ship !! SHIP_NAME_KEY = Some n)
    /\ ⋃ d.*2 = list_to_set (field_values SHIP_NAME_KEY traffic_data)
    /\ (traffic_data = [] -> d = [])
    /\ ("" ∈ keys d <-> exists ship, ship ∈ traffic_data /\ ship !! by_key = Some "").
Proof.
  intros Hkeys. destruct (entries_exist _ _ Hkeys) as [ps Hps].
  exists (foldl add_entry [] ps).
  assert (Hmem : forall k n, (exists g, (k, g) ∈ foldl add_entry [] ps /\ n ∈ g)
                             <-> (k, n) ∈ ps).
  { intros k n. rewrite foldl_add_member. split; [|auto].
    by intros [(g & ?%elem_of_nil & _)|?]. }
  assert (Hnodup : NoDup (keys (foldl add_entry [] ps))).
  { rewrite keys_foldl_nil. apply first_seen_NoDup. }
  split_and!.
  - unfold analyze_traffic_data_by.
    by rewrite (analyze_loop_foldl _ _ _ ps Hps).
  - by rewrite keys_foldl_nil, (entries_fst _ _ _ Hps).
  - done.
  - intros k g Hkg n. rewrite <- (entries_elem_of _ _ _ _ _ Hps), <- Hmem.
    split; [by exists g|].
    intros (g' & Hkg' & Hn).
    apply (dict_getitem_unique _ _ _ Hnodup) in Hkg, Hkg'. congruence.
  - apply set_eq. intros n.
    rewrite elem_of_union_list, elem_of_list_to_set, (entries_snd _ _ _ Hps).
    rewrite list_elem_of_fmap. split.
    + intros (g & ([k g'] & -> & Hkg)%list_elem_of_fmap & Hn).
      exists (k, n). split; [done|]. apply Hmem. by exists g'.
    + intros ([k n'] & -> & (g & Hkg & Hn)%Hmem).
      exists g. split; [|done]. apply list_elem_of_fmap. by exists (k, g).
  - intros ->. by apply Forall2_nil_inv_l in Hps as ->.
  - rewrite keys_foldl_nil, first_seen_elem_of, <- (entries_fst _ _ _ Hps).
    unfold field_values. apply list_elem_of_omap.
Qed.

Lemma analyze_groups_in_first_seen_order_witness :
  Forall (fun ship => has_key COUNTRY_KEY ship /\ has_key SHIP_NAME_KEY ship) demo_data
  /\ exists d,
    analyze_traffic_data_by demo_data COUNTRY_KEY false = Ok d
    /\ keys d = first_seen (field_values COUNTRY_KEY demo_data)
    /\ NoDup (keys d)
    /\ (forall k g, (k, g) ∈ d -> forall n,
          n ∈ g <-> exists ship, ship ∈ demo_data /\ ship !! COUNTRY_KEY = Some k
                                 /\ ship !! SHIP_NAME_KEY = Some n)
    /\ ⋃ d.*2 = list_to_set (field_values SHIP_NAME_KEY demo_data)
    /\ (demo_data = [] -> d = [])
    /\ ("" ∈ keys d <-> exists ship, ship ∈ demo_data /\ ship !! COUNTRY_KEY = Some "").
Proof.
  assert (Hk : Forall (fun ship => has_key COUNTRY_KEY ship
                                   /\ has_key SHIP_NAME_KEY ship) demo_data).
  { apply demo_data_has_keys. left. }
  split; [exact Hk|].
  exact (analyze_groups_in_first_seen_order demo_data COUNTRY_KEY Hk).
Defined.

(** The run on the demo data: four countries in the order met, the repeated
    US record counted once. *)
Example analyze_demo_countries :
  (fun d => (keys d, size <$> d.*2))
    <$> match analyze_traffic_data_by demo_data COUNTRY_KEY false with
        | Ok d => Some d
        | Raise _ => None
        end
  = Some (["DE"; "UK"; "FR"; "US"], [1; 3; 3; 5]%nat).
Proof. vm_compute. reflexivity. Qed.

(** An empty-string field value makes a group of its own. *)
Example analyze_empty_string_key :
  (fun d => (keys d, elements <$> d.*2))
    <$> match analyze_traffic_data_by
                [ship "" "Cargo" "ELBE"; ship "UK" "Cargo" "AVON"; ship "" "Tug" "TYNE"]
                COUNTRY_KEY false with
        | Ok d => Some d
        | Raise _ => None
        end
  = Some ([""; "UK"], [elements ({["ELBE"; "TYNE"]} : gset string); ["AVON"]]).
Proof. vm_compute. reflexivity. Qed.

(** A record without the grouping field is not tolerated: the lookup
    raises. *)
Example analyze_missing_field :
  analyze_traffic_data_by [ship "UK" "Cargo" "AVON"; {[ SHIP_NAME_KEY := "TYNE" ]}]
    COUNTRY_KEY false = Raise (KeyError COUNTRY_KEY).
Proof. vm_compute. reflexivity. Qed.

(** ** Ranking: [sorted(..., key=len, reverse=True)] *)

Lemma nat_leb_total (a b : nat) : Nat.leb a b = true \/ Nat.leb b a = true.
Proof. rewrite !Nat.leb_le. lia. Qed.

Lemma nat_leb_trans (a b c : nat) :
  Nat.leb a b = true -> Nat.leb b c = true -> Nat.leb a c = true.
Proof. rewrite !Nat.leb_le. lia. Qed.

Lemma StronglySorted_mono {A} (R1 R2 : A -> A -> Prop) (l : list A) :
  (forall x y, R1 x y -> R2 x y) -> StronglySorted R1 l -> StronglySorted R2 l.
Proof.
  intros HR. induction 1 as [|x l _ IH Hx]; constructor; [done|].
  eapply Forall_impl; [exact Hx|]. auto.
Qed.

Section ranking.
Context {V : Type} (score : V -> nat).

(** Sorting by descending score: a permutation, in descending order, with
    ties in their original order. *)
Lemma sorted_descending (l : list V) :
  let ranked := sorted Nat.leb score true l in
  ranked ≡ₚ l
  /\ StronglySorted (fun x y => (score y <= score x)%nat) ranked
  /\ (forall x y, score x = score y -> precedes x y ranked <-> precedes x y l).
Proof.
  simpl. split_and!.
  - apply sorted_Permutation.
  - eapply StronglySorted_mono;
      [|apply (sorted_StronglySorted Nat.leb score nat_leb_total nat_leb_trans)].
    intros x y. unfold in_order, goes_before. apply Nat.leb_le.
  - intros x y. apply (sorted_keeps_ties Nat.leb score nat_leb_total).
Qed.

End ranking.

(** C2. Ranking a grouping ([is_sorted=True]) returns its (key, group) pairs
    by descending group cardinality, and two pairs whose groups have the same
    cardinality stand in the ranked sequence in the order they have in the
    unranked grouping: the sort is stable. *)
Theorem ranking_is_stable_descending (traffic_data : list record) (by_key : string)
    (d : dict (gset string)) :
  analyze_traffic_data_by traffic_data by_key false = Ok d ->
  exists ranked,
    analyze_traffic_data_by traffic_data by_key true = Ok ranked
    /\ ranked ≡ₚ items d
    /\ StronglySorted (fun x y => (size y.2 <= size x.2)%nat) ranked
    /\ (forall x y, size x.2 = size y.2 ->
          precedes x y ranked <-> precedes x y (items d)).
Proof.
  unfold analyze_traffic_data_by.
  destruct (analyze_loop by_key [] traffic_data) as [d'|e]; simpl; [|done].
  intros [= ->]. eexists. split; [done|].
  apply (sorted_descending (fun x : string * gset string => size x.2)).
Qed.

Lemma ranking_is_stable_descending_witness :
  exists d,
    analyze_traffic_data_by demo_data COUNTRY_KEY false = Ok d
    /\ exists ranked,
         analyze_traffic_data_by demo_data COUNTRY_KEY true = Ok ranked
         /\ ranked ≡ₚ items d
         /\ StronglySorted (fun x y => (size y.2 <= size x.2)%nat) ranked
         /\ (forall x y, size x.2 = size y.2 ->
               precedes x y ranked <-> precedes x y (items d)).
Proof.
  assert (Hk : Forall (fun ship => has_key COUNTRY_KEY ship
                                   /\ has_key SHIP_NAME_KEY ship) demo_data).
  { apply demo_data_has_keys. left. }
  destruct (entries_exist _ _ Hk) as [ps Hps].
  assert (Hd : analyze_traffic_data_by demo_data COUNTRY_KEY false
               = Ok (foldl add_entry [] ps)).
  { unfold analyze_traffic_data_by. by rewrite (analyze_loop_foldl _ _ _ ps Hps). }
  exists (foldl add_entry [] ps). split; [exact Hd|].
  exact (ranking_is_stable_descending demo_data COUNTRY_KEY _ Hd).
Defined.

(** On the demo data US (5) comes first, then UK and FR (3 each) in the
    order they were met, then DE (1). *)
Example ranking_demo_countries :
  (fun d => (keys d, size <$> d.*2))
    <$> match analyze_traffic_data_by demo_data COUNTRY_KEY true with
        | Ok d => Some d
        | Raise _ => None
        end
  = Some (["US"; "UK"; "FR"; "DE"], [5; 3; 3; 1]%nat).
Proof. vm_compute. reflexivity. Qed.

(** ** Console output of the printing loops *)

Section console_facts.
Context `{Externals}.

Lemma written_nil w : written w [] = w.
Proof. destruct w. unfold written. simpl. by rewrite app_nil_r. Qed.

Lemma written_app w e1 e2 : written (written w e1) e2 = written w (e1 ++ e2).
Proof. unfold written. simpl. by rewrite app_assoc. Qed.

Lemma print_run text w : print text w = (Ok tt, written w [Print text]).
Proof. done. Qed.

Lemma for_each_print (l : list string) w :
  for_each l print w = (Ok tt, written w (Print <$> l)).
Proof.
  revert w. induction l as [|x l IH]; intros w; simpl.
  - by rewrite written_nil.
  - unfold mbind, M_bind. rewrite print_run, IH, written_app. done.
Qed.

Lemma print_iterable_run (l : list string) w :
  print_iterable l w = (Ok tt, written w ((Print <$> l) ++ [Print ""])).
Proof.
  unfold print_iterable, mbind, M_bind.
  by rewrite for_each_print, print_run, written_app.
Qed.

Lemma print_iterable_value_run (l : list (string * gset string)) w :
  print_iterable_value l w = (Ok tt, written w ((count_line <$> l) ++ [Print ""])).
Proof.
  unfold print_iterable_value, mbind, M_bind.
  assert (Hloop : forall w, for_each l
            (fun '(key, val) => print (key +:+ ": " +:+ str_of_nat (size val))) w
          = (Ok tt, written w (count_line <$> l))).
  { clear w. induction l as [|[k g] l IH]; intros w; simpl.
    - by rewrite written_nil.
    - unfold mbind, M_bind. rewrite print_run, IH, written_app. done. }
  by rewrite Hloop, print_run, written_app.
Qed.

End console_facts.


(** ** Fuzzy search (titanic.py, lines 56-70) *)

Lemma filter_none {A} (P : A -> Prop) `{!forall x, Decision (P x)} (l : list A) :
  Forall (fun x => ~ P x) l -> filter P l = [].
Proof.
  induction 1 as [|x l Hx _ IH]; [done|]. by rewrite filter_cons_False.
Qed.

(** In a list in descending order of score, the elements above a threshold
    come first: taking the first [n] and keeping those above the threshold
    is keeping those above the threshold and taking the first [n]. *)
Lemma take_filter_descending {A} (score : A -> nat) (t n : nat) (l : list A) :
  StronglySorted (fun x y => (score y <= score x)%nat) l ->
  filter (fun x => (t < score x)%nat) (take n l)
  = take n (filter (fun x => (t < score x)%nat) l).
Proof.
  intros Hl. revert n. induction Hl as [|x l _ IH Hx]; intros [|n]; simpl; try done.
  rewrite !filter_cons. destruct (decide (t < score x)%nat) as [Hp|Hp]; simpl.
  - by rewrite IH.
  - assert (Hnone : Forall (fun y => ~ (t < score y)%nat) l).
    { eapply Forall_impl; [exact Hx|]. simpl. lia. }
    rewrite (filter_none _ l Hnone), take_nil.
    apply filter_none. by apply Forall_take.
Qed.

Section search.
Context `{Externals}.
Implicit Types (q c : string) (names : gset string).

Lemma scoreboard_score q names p : p ∈ scoreboard q names -> p.2 = WRatio q p.1.
Proof.
  unfold scoreboard. rewrite sorted_Permutation, list_elem_of_fmap.
  by intros (c & -> & _).
Qed.

Lemma scoreboard_fst q names : (scoreboard q names).*1 ≡ₚ elements names.
Proof.
  unfold scoreboard. rewrite sorted_Permutation, <- list_fmap_compose.
  rewrite <- (set_iter_perm names).
  by induction (set_iter names) as [|c l IH]; csimpl; [|rewrite IH].
Qed.

Lemma search_results_take q names :
  search_results q names
  = take extract_default_limit
      (filter (fun p => SEARCH_ACCURACY < p.2)%nat (scoreboard q names)).*1.
Proof.
  unfold search_results, process_extract. fold (scoreboard q names).
  rewrite <- fmap_take. f_equal.
  apply (take_filter_descending snd), (sorted_descending snd).
Qed.

Lemma search_results_length q names :
  (length (search_results q names) <= extract_default_limit)%nat.
Proof. rewrite search_results_take, length_take. lia. Qed.

(** The run of the handler: the names are collected, the query is read,
    and the results (or their absence) are reported; nothing is raised. *)
Lemma search_ship_by_name_run traffic_data names q rest tr fig :
  ships_names_of traffic_data = Ok names ->
  search_ship_by_name traffic_data {| stdin := q :: rest; trace := tr; figure := fig |}
  = (Ok tt,
     {| stdin := rest;
        trace := tr ++ Prompt "Enter the search query: "
                    :: search_report (search_results q names);
        figure := fig |}).
Proof.
  intros Hn. unfold search_ship_by_name, mbind, M_bind, lift. rewrite Hn.
  unfold input, mbind, M_bind, emit, readline. simpl.
  unfold search_report. destruct (search_results q names) as [|r rs]; simpl.
  - rewrite print_run. unfold written. simpl. by rewrite <- app_assoc.
  - rewrite print_iterable_run. unfold written. simpl. by rewrite <- !app_assoc.
Qed.

End search.

Lemma StronglySorted_filter {A} (R : A -> A -> Prop) (P : A -> Prop)
    `{!forall x, Decision (P x)} (l : list A) :
  StronglySorted R l -> StronglySorted R (filter P l).
Proof.
  induction 1 as [|x l _ IH Hx]; [constructor|].
  rewrite filter_cons. destruct (decide (P x)); [|done].
  constructor; [done|]. apply Forall_forall. intros y [_ Hy]%list_elem_of_filter.
  by eapply Forall_forall in Hx.
Qed.

Lemma StronglySorted_fmap_elem {A B} (R : A -> A -> Prop) (R' : B -> B -> Prop)
    (g : A -> B) (l : list A) :
  (forall x y, x ∈ l -> y ∈ l -> R x y -> R' (g x) (g y)) ->
  StronglySorted R l -> StronglySorted R' (g <$> l).
Proof.
  intros Hg Hl. induction Hl as [|x l _ IH Hx]; csimpl; constructor.
  - apply IH. intros y z Hy Hz. apply Hg; by right.
  - apply Forall_fmap, Forall_forall. intros y Hy. simpl.
    apply Hg; [left|by right|]. by eapply Forall_forall in Hx.
Qed.

Lemma NoDup_fst_filter {A B} (P : A * B -> Prop) `{!forall x, Decision (P x)}
    (l : list (A * B)) :
  NoDup l.*1 -> NoDup (filter P l).*1.
Proof.
  intros Hl. eapply sublist_NoDup; [exact Hl|].
  apply fmap_sublist, sublist_filter.
Qed.

Section search_claims.
Context `{Externals}.

(** C3, as the code has it.  The candidates whose ratio against the query
    is strictly greater than 85, listed once each in descending order of
    score, form a ranking; the search returns the first five of the ranking
    (all of it when it has at most five entries), hence nothing when no
    candidate clears the threshold; and the handler reports the results, or
    "No results found", without raising. *)
Theorem search_returns_first_five_above_threshold (q : string) (names : gset string) :
  exists ranking : list string,
    NoDup ranking
    /\ (forall c, c ∈ ranking <-> c ∈ names /\ (SEARCH_ACCURACY < WRatio q c)%nat)
    /\ StronglySorted (fun a b => (WRatio q b <= WRatio q a)%nat) ranking
    /\ search_results q names = take 5 ranking
    /\ ((forall c, c ∈ names -> (WRatio q c <= SEARCH_ACCURACY)%nat) ->
        search_results q names = [])
    /\ (forall traffic_data rest tr fig,
          ships_names_of traffic_data = Ok names ->
          search_ship_by_name traffic_data
            {| stdin := q :: rest; trace := tr; figure := fig |}
          = (Ok tt,
             {| stdin := rest;
                trace := tr ++ Prompt "Enter the search query: "
                            :: search_report (search_results q names);
                figure := fig |})).
Proof.
  set (above := fun p : string * nat => (SEARCH_ACCURACY < p.2)%nat).
  exists (filter above (scoreboard q names)).*1.
  assert (Hmem : forall c, c ∈ (filter above (scoreboard q names)).*1
                           <-> c ∈ names /\ (SEARCH_ACCURACY < WRatio q c)%nat).
  { intros c. rewrite <- elem_of_elements, <- (scoreboard_fst q names).
    rewrite !list_elem_of_fmap. split.
    - intros ([c' s] & -> & [Hs Hin]%list_elem_of_filter).
      pose proof (scoreboard_score _ _ _ Hin) as Hsc. simpl in *. subst s.
      split; [by exists (c', WRatio q c')|done].
    - intros [([c' s] & -> & Hin) Hs].
      pose proof (scoreboard_score _ _ _ Hin) as Hsc. simpl in *. subst s.
      exists (c', WRatio q c'). split; [done|]. by apply list_elem_of_filter. }
  split_and!.
  - apply NoDup_fst_filter. rewrite scoreboard_fst. apply NoDup_elements.
  - exact Hmem.
  - apply (StronglySorted_fmap_elem (fun x y => (y.2 <= x.2)%nat)).
    + intros x y [_ Hx]%list_elem_of_filter [_ Hy]%list_elem_of_filter.
      by rewrite (scoreboard_score _ _ _ Hx), (scoreboard_score _ _ _ Hy).
    + apply StronglySorted_filter, (sorted_descending snd).
  - apply search_results_take.
  - intros Hnone.
    transitivity (take extract_default_limit (filter above (scoreboard q names)).*1);
      [apply search_results_take|].
    destruct (filter above (scoreboard q names)).*1 as [|c l]; [done|].
    destruct (proj1 (Hmem c)) as [Hc Hs]; [left|]. apply Hnone in Hc. lia.
  - intros *. apply search_ship_by_name_run.
Qed.

(** C9. The search never returns more than five names, whatever the data
    set and the query, because [process.extract] is called with its default
    limit; and the handler prints just those. *)
Theorem search_returns_at_most_five (q : string) (names : gset string) :
  (length (search_results q names) <= 5)%nat
  /\ (forall traffic_data rest tr fig,
        ships_names_of traffic_data = Ok names ->
        exists results,
          (length results <= 5)%nat
          /\ search_ship_by_name traffic_data
               {| stdin := q :: rest; trace := tr; figure := fig |}
             = (Ok tt,
                {| stdin := rest;
                   trace := tr ++ Prompt "Enter the search query: "
                               :: search_report results;
                   figure := fig |})).
Proof.
  split; [apply search_results_length|].
  intros * Hn. exists (search_results q names).
  split; [apply search_results_length|]. by apply search_ship_by_name_run.
Qed.

End search_claims.

(** C3 as stated fails: six candidates rate above the threshold against
    "titanic", and one of them is not returned. *)
Lemma search_misses_a_candidate_above_threshold :
  exists c,
    c ∈ six_titanics
    /\ (SEARCH_ACCURACY < WRatio (Externals := demo_externals) "titanic" c)%nat
    /\ c ∉ search_results (H := demo_externals) "titanic" six_titanics.
Proof.
  exists "TITANIC". split_and!.
  - vm_compute. tauto.
  - vm_compute. lia.
  - vm_compute. intros Hin.
    repeat (apply elem_of_cons in Hin as [Heq|Hin]; [discriminate Heq|]).
    by apply elem_of_nil in Hin.
Qed.

(** More than five candidates above the threshold, five names returned. *)
Example search_six_above_five_returned :
  size (filter (fun c => SEARCH_ACCURACY < WRatio (Externals := demo_externals) "titanic" c)%nat
          six_titanics) = 6%nat
  /\ length (search_results (H := demo_externals) "titanic" six_titanics) = 5%nat.
Proof. split; vm_compute; reflexivity. Qed.

(** ** Strings: [strip] and [split] *)

Section string_facts.
Implicit Types (s t : string) (c : ascii).

Lemma lstrip_blank s : lstrip s = "" <-> blank s = true.
Proof.
  unfold blank. induction s as [|c s IH]; simpl; [done|].
  destruct (isspace_char c); simpl; [done|]. split; discriminate.
Qed.

Lemma lstrip_head s c s' : lstrip s = String c s' -> isspace_char c = false.
Proof.
  induction s as [|c0 s IH]; simpl; [done|].
  destruct (isspace_char c0) eqn:Hc0; [done|]. by intros [= -> ->].
Qed.

Lemma lstrip_nonspace c s : isspace_char c = false -> lstrip (String c s) = String c s.
Proof. intros Hc. simpl. by rewrite Hc. Qed.

Lemma rstrip_head c s :
  isspace_char c = false -> exists s', rstrip (String c s) = String c s'.
Proof. intros Hc. simpl. rewrite Hc. destruct (rstrip s); eauto. Qed.

Lemma rstrip_no_blank_tail s : no_blank_tail (rstrip s) = true.
Proof.
  induction s as [|c s IH]; simpl; [done|].
  destruct (rstrip s) as [|c' r] eqn:Hr.
  - destruct (isspace_char c) eqn:Hc; simpl; [done|].
    unfold blank. simpl. by rewrite Hc.
  - change (no_blank_tail (String c (String c' r)))
      with (negb (blank (String c (String c' r))) && no_blank_tail (String c' r)).
    rewrite IH, andb_true_r.
    change (no_blank_tail (String c' r))
      with (negb (blank (String c' r)) && no_blank_tail r) in IH.
    apply andb_true_iff in IH as [Hb _].
    unfold blank in *. simpl in *. apply negb_true_iff in Hb.
    rewrite Hb. by rewrite andb_false_r.
Qed.

(** The trimmed text starts with no whitespace and ends with none. *)
Lemma strip_stripped s :
  lstrip (strip s) = strip s /\ no_blank_tail (strip s) = true.
Proof.
  split; [|apply rstrip_no_blank_tail].
  unfold strip. destruct (lstrip s) as [|c s'] eqn:Hs; [done|].
  pose proof (lstrip_head _ _ _ Hs) as Hc.
  destruct (rstrip_head c s' Hc) as [r ->]. by apply lstrip_nonspace.
Qed.

Lemma break_space_no_blank_tail s tok rest :
  break_space s = (tok, rest) -> no_blank_tail s = true -> no_blank_tail rest = true.
Proof.
  revert tok rest. induction s as [|c s IH]; intros tok rest; simpl.
  - by intros [= <- <-].
  - destruct (isspace_char c) eqn:Hc.
    + by intros [= <- <-].
    + destruct (break_space s) as [tok' rest'] eqn:Hb. intros [= <- <-].
      intros [_ Hs]%andb_true_iff. by eapply IH.
Qed.

Lemma str_in_cons sub c s :
  str_in sub (String c s) = String.prefix sub (String c s) || str_in sub s.
Proof. done. Qed.

Lemma str_in_space_break s :
  str_in " " s = true -> (break_space s).2 <> "".
Proof.
  induction s as [|c s IH]; [done|].
  rewrite str_in_cons. cbn [break_space].
  destruct (isspace_char c) eqn:Hc; [done|].
  intros [Hp|Hs]%orb_true_iff.
  - exfalso. cbn [String.prefix] in Hp.
    destruct (ascii_dec " " c) as [<-|]; [by vm_compute in Hc|done].
  - specialize (IH Hs). by destruct (break_space s).
Qed.

Lemma no_blank_tail_lstrip s : no_blank_tail s = true -> s <> "" -> lstrip s <> "".
Proof.
  intros Hs Hne Hl. apply lstrip_blank in Hl.
  destruct s as [|c s]; [done|].
  change (no_blank_tail (String c s))
    with (negb (blank (String c s)) && no_blank_tail s) in Hs.
  apply andb_true_iff in Hs as [Hb _]. by rewrite Hl in Hb.
Qed.

(** A trimmed text that holds a space splits in exactly two fields. *)
Lemma split_stripped_two line :
  str_in " " (strip line) = true ->
  exists tok param, split 1 (strip line) = [tok; param] /\ param <> "".
Proof.
  intros Hsp. destruct (strip_stripped line) as [Hl Ht].
  destruct (strip line) as [|c t] eqn:Hs; [done|].
  unfold split. rewrite Hl. fold split.
  destruct (break_space (String c t)) as [tok rest] eqn:Hb.
  pose proof (str_in_space_break _ Hsp) as Hrest. rewrite Hb in Hrest. simpl in Hrest.
  pose proof (break_space_no_blank_tail _ _ _ Hb Ht) as Hrt.
  pose proof (no_blank_tail_lstrip _ Hrt Hrest) as Hlr.
  exists tok, (lstrip rest). simpl.
  destruct (lstrip rest) eqn:Hr; [done|]. done.
Qed.

End string_facts.

(** ** Validation (titanic.py, lines 151-169) *)

Section validation.
Context `{Externals} {V : Type} (dispatcher : dict V).
Implicit Types (line t : string) (rest : list string) (tr : list event).

Lemma input_None_run line rest tr fig :
  input None {| stdin := line :: rest; trace := tr; figure := fig |}
  = (Ok line, line_read rest tr fig).
Proof. done. Qed.

(** A blank line: ValueError, nothing written. *)
Lemma get_valid_action_blank line rest tr fig :
  strip line = "" ->
  get_valid_action dispatcher {| stdin := line :: rest; trace := tr; figure := fig |}
  = (Raise (ValueError "Empty input"), line_read rest tr fig).
Proof.
  intros Ht. unfold get_valid_action, mbind, M_bind.
  rewrite input_None_run, Ht. done.
Qed.

(** The argument rule: the text holds a space and begins with
    "top_countries". *)
Lemma get_valid_action_argument line rest tr fig tok param :
  strip line <> "" ->
  str_in " " (strip line) && startswith (strip line) "top_countries" = true ->
  split 1 (strip line) = [tok; param] ->
  get_valid_action dispatcher {| stdin := line :: rest; trace := tr; figure := fig |}
  = if isnumeric param
    then (Ok (tok, Some param), line_read rest tr fig)
    else (Raise (ValueError "Parameter is not integer"),
          line_read rest (tr ++ [Print ("Unknown parameter " +:+ param)]) fig).
Proof.
  intros Hne Hrule Hsplit. unfold get_valid_action, mbind, M_bind.
  rewrite input_None_run, bool_decide_eq_false_2 by done.
  rewrite Hrule, Hsplit. simpl. by destruct (isnumeric param).
Qed.

(** The command rule: every other text. *)
Lemma get_valid_action_command line rest tr fig :
  strip line <> "" ->
  str_in " " (strip line) && startswith (strip line) "top_countries" = false ->
  get_valid_action dispatcher {| stdin := line :: rest; trace := tr; figure := fig |}
  = if negb (dict_in (strip line) dispatcher)
       || bool_decide (strip line = "top_countries")
    then (Raise (ValueError "Command is not in dispatcher"),
          line_read rest (tr ++ [Print ("Unknown command " +:+ strip line)]) fig)
    else (Ok (strip line, None), line_read rest tr fig).
Proof.
  intros Hne Hrule. unfold get_valid_action, mbind, M_bind.
  rewrite input_None_run, bool_decide_eq_false_2 by done.
  rewrite Hrule.
  by destruct (negb (dict_in (strip line) dispatcher)
               || bool_decide (strip line = "top_countries")).
Qed.

(** The validator raises nothing but ValueError once a line is there, and
    what it has written by then is nothing (blank line), or one
    "Unknown parameter" line, or one "Unknown command" line. *)
Lemma get_valid_action_Raise line rest tr fig e w' :
  get_valid_action dispatcher {| stdin := line :: rest; trace := tr; figure := fig |}
  = (Raise e, w') ->
  (exists msg, e = ValueError msg)
  /\ ((strip line = "" /\ w' = line_read rest tr fig)
      \/ (exists param, split 1 (strip line) !! 1%nat = Some param
                        /\ w' = line_read rest
                                  (tr ++ [Print ("Unknown parameter " +:+ param)]) fig)
      \/ w' = line_read rest (tr ++ [Print ("Unknown command " +:+ strip line)]) fig).
Proof.
  destruct (decide (strip line = "")) as [Hb|Hne].
  { rewrite get_valid_action_blank by done. intros [= <- <-]. eauto. }
  destruct (str_in " " (strip line) && startswith (strip line) "top_countries")
    eqn:Hrule.
  - pose proof Hrule as [Hsp _]%andb_true_iff.
    destruct (split_stripped_two line Hsp) as (tok & param & Hsplit & _).
    rewrite (get_valid_action_argument _ _ _ _ tok param) by done.
    destruct (isnumeric param); intros [= <- <-].
    split; [eauto|]. right. left. exists param. by rewrite Hsplit.
  - rewrite get_valid_action_command by done.
    destruct (negb (dict_in (strip line) dispatcher)
              || bool_decide (strip line = "top_countries")); intros [= <- <-].
    split; [eauto|]. by do 2 right.
Qed.

End validation.

Lemma startswith_app (p s : string) : startswith (p +:+ s) p = true.
Proof.
  unfold startswith. induction p as [|a p IH]; simpl.
  - by destruct s.
  - by destruct (ascii_dec a a).
Qed.

Lemma lstrip_blank_app (ws s : string) : blank ws = true -> lstrip (ws +:+ s) = lstrip s.
Proof.
  unfold blank. induction ws as [|c ws IH]; simpl; [done|].
  intros [Hc Hws]%andb_true_iff. rewrite Hc. auto.
Qed.

Lemma break_space_app (p r : string) (c : ascii) :
  str_all (fun a => negb (isspace_char a)) p = true -> isspace_char c = true ->
  break_space (p +:+ String c r) = (p, String c r).
Proof.
  intros Hp Hc. induction p as [|a p IH]; simpl.
  - by rewrite Hc.
  - simpl in Hp. apply andb_true_iff in Hp as [Ha Hp].
    apply negb_true_iff in Ha. by rewrite Ha, IH.
Qed.

Lemma split_1_break (s tok rest : string) :
  lstrip s = s -> s <> "" -> break_space s = (tok, rest) ->
  split 1 s = tok :: match lstrip rest with
                     | EmptyString => []
                     | r => [r]
                     end.
Proof.
  intros Hl Hne Hb. unfold split. rewrite Hl.
  destruct s; [done|]. by rewrite Hb.
Qed.

(** "top_countries", whitespace, and a remainder that starts with no
    whitespace split into the command and the remainder. *)
Lemma split_top_countries (ws rem : string) :
  ws <> "" -> blank ws = true -> lstrip rem = rem -> rem <> "" ->
  split 1 ("top_countries" +:+ ws +:+ rem) = ["top_countries"; rem].
Proof.
  intros Hne Hws Hrem Hrne.
  destruct ws as [|c ws]; [done|].
  assert (Hc : isspace_char c = true).
  { unfold blank in Hws. simpl in Hws. by apply andb_true_iff in Hws as [? _]. }
  assert (Hb : break_space ("top_countries" +:+ String c (ws +:+ rem))
               = ("top_countries", String c (ws +:+ rem))).
  { by apply break_space_app. }
  rewrite (split_1_break _ "top_countries" (String c (ws +:+ rem))); [|done| |done].
  2:{ simpl. discriminate. }
  change (String c (ws +:+ rem)) with (String c ws +:+ rem).
  rewrite lstrip_blank_app, Hrem by done.
  by destruct rem.
Qed.

Lemma isnumeric_ascii (s : string) :
  s <> "" -> isascii s = true -> isnumeric s = str_all isdecimal_char s.
Proof.
  intros Hne Ha. destruct s as [|c0 s0]; [done|]. unfold isnumeric.
  revert Ha. generalize (String c0 s0). clear. intros s.
  unfold isascii. induction s as [|c s IH]; simpl; [done|].
  intros [Hc Hs]%andb_true_iff. rewrite IH by done. f_equal.
  unfold isnumeric_char. apply N.ltb_lt in Hc.
  repeat match goal with
         | |- context [(ord c =? ?n)%N] =>
             rewrite (proj2 (N.eqb_neq (ord c) n)) by lia
         end.
  by rewrite !orb_false_r.
Qed.

(** ** The read-eval-print loop (titanic.py, lines 173-185) *)

Section loop.
Context `{Externals}.
Implicit Types (line : string) (rest : list string) (tr : list event).

Lemma keys_DISPATCH_DICT : keys DISPATCH_DICT = DISPATCH_KEYS.
Proof. done. Qed.

Lemma dict_in_DISPATCH_DICT t :
  dict_in t DISPATCH_DICT = bool_decide (t ∈ DISPATCH_KEYS).
Proof. done. Qed.

(** A failed validation ends the turn without an exception. *)
Lemma main_body_validation_failure traffic_data line rest tr fig e w' :
  get_valid_action DISPATCH_DICT {| stdin := line :: rest; trace := tr; figure := fig |}
  = (Raise e, w') ->
  main_body traffic_data {| stdin := line :: rest; trace := tr; figure := fig |}
  = (Ok tt, w').
Proof.
  intros Hv. destruct (get_valid_action_Raise _ _ _ _ _ _ _ Hv) as [[msg ->] _].
  unfold main_body. by rewrite Hv.
Qed.

(** C4, as the code has it.  A blank line fails validation and is discarded
    with nothing written.  And whenever the validation of an input line
    fails, no exception leaves the loop: the turn ends, the loop goes on with
    the next line, and what was written is nothing when the line is blank,
    and otherwise exactly one diagnostic that names the offending text,
    "Unknown parameter ..." for a parameter that is not numeric or "Unknown
    command ..." for the trimmed line. *)
Theorem validation_failure_is_caught traffic_data line rest tr fig :
  (strip line = "" ->
   get_valid_action DISPATCH_DICT {| stdin := line :: rest; trace := tr; figure := fig |}
   = (Raise (ValueError "Empty input"), line_read rest tr fig)
   /\ main_body traffic_data {| stdin := line :: rest; trace := tr; figure := fig |}
      = (Ok tt, line_read rest tr fig))
  /\ (forall e w',
        get_valid_action DISPATCH_DICT
          {| stdin := line :: rest; trace := tr; figure := fig |}
        = (Raise e, w') ->
        main_body traffic_data {| stdin := line :: rest; trace := tr; figure := fig |}
        = (Ok tt, w')
        /\ (forall fuel,
              main_loop (S fuel) traffic_data
                {| stdin := line :: rest; trace := tr; figure := fig |}
              = main_loop fuel traffic_data w')
        /\ stdin w' = rest
        /\ figure w' = fig
        /\ ((strip line = "" /\ trace w' = tr)
            \/ (strip line <> ""
                /\ exists param,
                     split 1 (strip line) !! 1%nat = Some param
                     /\ isnumeric param = false
                     /\ trace w' = tr ++ [Print ("Unknown parameter " +:+ param)])
            \/ (strip line <> ""
                /\ trace w' = tr ++ [Print ("Unknown command " +:+ strip line)]))).
Proof.
  split.
  { intros Hblank.
    pose proof (get_valid_action_blank DISPATCH_DICT line rest tr fig Hblank) as Hv.
    split; [exact Hv|]. by apply (main_body_validation_failure traffic_data) in Hv. }
  intros e w' Hv.
  pose proof (main_body_validation_failure traffic_data _ _ _ _ _ _ Hv) as Hb.
  split; [exact Hb|]. split; [intros fuel; simpl; by rewrite Hb|].
  revert Hv. destruct (decide (strip line = "")) as [Hblank|Hne].
  { rewrite get_valid_action_blank by done. intros [= <- <-].
    split_and!; [done..|]. by left. }
  destruct (str_in " " (strip line) && startswith (strip line) "top_countries")
    eqn:Hrule.
  - pose proof Hrule as [Hsp _]%andb_true_iff.
    destruct (split_stripped_two line Hsp) as (tok & param & Hsplit & _).
    rewrite (get_valid_action_argument _ _ _ _ _ tok param) by done.
    destruct (isnumeric param) eqn:Hnum; intros [= <- <-].
    split_and!; [done..|]. right. left. split; [done|].
    exists param. by rewrite Hsplit.
  - rewrite get_valid_action_command by done.
    destruct (negb (dict_in (strip line) DISPATCH_DICT)
              || bool_decide (strip line = "top_countries")); intros [= <- <-].
    split_and!; [done..|]. by do 2 right.
Qed.

(** The command rule, where the code reaches it.  The text "top_countries"
    alone, and every non-empty trimmed text that is not under the argument
    rule (a space in it and "top_countries" at its start) and is no
    registered command name, is answered by "Unknown command <text>"; the
    turn ends there, no handler runs. *)
Theorem unknown_command_is_rejected traffic_data line rest tr fig :
  strip line = "top_countries"
  \/ (strip line <> ""
      /\ str_in " " (strip line) && startswith (strip line) "top_countries" = false
      /\ strip line ∉ DISPATCH_KEYS) ->
  get_valid_action DISPATCH_DICT {| stdin := line :: rest; trace := tr; figure := fig |}
  = (Raise (ValueError "Command is not in dispatcher"),
     line_read rest (tr ++ [Print ("Unknown command " +:+ strip line)]) fig)
  /\ main_body traffic_data {| stdin := line :: rest; trace := tr; figure := fig |}
     = (Ok tt, line_read rest (tr ++ [Print ("Unknown command " +:+ strip line)]) fig).
Proof.
  intros Hcase.
  assert (Hv : get_valid_action DISPATCH_DICT
                 {| stdin := line :: rest; trace := tr; figure := fig |}
               = (Raise (ValueError "Command is not in dispatcher"),
                  line_read rest (tr ++ [Print ("Unknown command " +:+ strip line)]) fig)).
  { destruct Hcase as [Ht|(Hne & Hrule & Hnot)].
    - rewrite get_valid_action_command; rewrite Ht; [|done..].
      by rewrite bool_decide_eq_true_2, orb_true_r.
    - rewrite get_valid_action_command by done.
      by rewrite dict_in_DISPATCH_DICT, bool_decide_eq_false_2. }
  split; [exact Hv|]. by apply (main_body_validation_failure traffic_data) in Hv.
Qed.

(** C6, as the code has it.  A trimmed line made of "top_countries",
    whitespace and an ASCII remainder, with a space somewhere in it, is
    accepted with the pair (command, remainder) exactly when the remainder is
    all decimal digits; otherwise "Unknown parameter <remainder>" is written
    and the turn ends, no handler runs. *)
Theorem top_countries_argument_is_checked traffic_data line ws rem rest tr fig :
  strip line = "top_countries" +:+ ws +:+ rem ->
  ws <> "" -> blank ws = true ->
  rem <> "" -> lstrip rem = rem -> isascii rem = true ->
  str_in " " (strip line) = true ->
  if str_all isdecimal_char rem
  then get_valid_action DISPATCH_DICT
         {| stdin := line :: rest; trace := tr; figure := fig |}
       = (Ok ("top_countries", Some rem), line_read rest tr fig)
  else get_valid_action DISPATCH_DICT
         {| stdin := line :: rest; trace := tr; figure := fig |}
       = (Raise (ValueError "Parameter is not integer"),
          line_read rest (tr ++ [Print ("Unknown parameter " +:+ rem)]) fig)
       /\ main_body traffic_data {| stdin := line :: rest; trace := tr; figure := fig |}
          = (Ok tt, line_read rest (tr ++ [Print ("Unknown parameter " +:+ rem)]) fig).
Proof.
  intros Ht Hws Hblank Hrem Hlrem Hascii Hsp.
  assert (Hv : get_valid_action DISPATCH_DICT
                 {| stdin := line :: rest; trace := tr; figure := fig |}
               = if isnumeric rem
                 then (Ok ("top_countries", Some rem), line_read rest tr fig)
                 else (Raise (ValueError "Parameter is not integer"),
                       line_read rest
                         (tr ++ [Print ("Unknown parameter " +:+ rem)]) fig)).
  { apply get_valid_action_argument.
    - rewrite Ht. simpl. discriminate.
    - rewrite Hsp, Ht. apply startswith_app.
    - rewrite Ht. by apply split_top_countries. }
  rewrite isnumeric_ascii in Hv by done.
  destruct (str_all isdecimal_char rem); [exact Hv|].
  split; [exact Hv|]. by apply (main_body_validation_failure traffic_data) in Hv.
Qed.

End loop.

(** ** The order of strings: [sorted] on country names *)

Section string_order.
Import OrderedTypeEx.

Lemma string_leb_spec (a b : string) :
  String.leb a b = true <-> a = b \/ String_as_OT.lt a b.
Proof.
  unfold String.leb. destruct (String.compare a b) eqn:Hc.
  - apply String_as_OT.cmp_eq in Hc. tauto.
  - apply String_as_OT.cmp_lt in Hc. tauto.
  - split; [done|]. intros [Heq|Hlt].
    + apply String_as_OT.cmp_eq in Heq. unfold String_as_OT.cmp in Heq. congruence.
    + apply String_as_OT.cmp_lt in Hlt. unfold String_as_OT.cmp in Hlt. congruence.
Qed.

Lemma string_leb_trans (a b c : string) :
  String.leb a b = true -> String.leb b c = true -> String.leb a c = true.
Proof.
  rewrite !string_leb_spec. intros [->|Hab] [->|Hbc]; auto.
  right. by eapply String_as_OT.lt_trans.
Qed.

Lemma string_ltb_leb (a b : string) :
  String.ltb a b = true <-> String.leb a b = true /\ a <> b.
Proof.
  unfold String.ltb, String.leb. destruct (String.compare a b) eqn:Hc.
  - apply String.compare_eq_iff in Hc. split; [done|]. by intros [_ ?].
  - split; [|done]. intros _. split; [done|]. intros ->.
    pose proof (proj2 (String_as_OT.cmp_eq b b) eq_refl) as Hr.
    unfold String_as_OT.cmp in Hr. congruence.
  - split; [done|]. by intros [? _].
Qed.

End string_order.

(** Sorting names in ascending order: the one list that is a permutation
    of the input and ascending; strictly ascending when there are no
    repetitions. *)
Lemma sorted_names (l : list string) :
  let names := sorted String.leb id false l in
  names ≡ₚ l
  /\ StronglySorted (fun a b => String.leb a b = true) names
  /\ (NoDup l -> StronglySorted (fun a b => String.ltb a b = true) names).
Proof.
  simpl.
  assert (Hs : StronglySorted (fun a b => String.leb a b = true)
                 (sorted String.leb id false l)).
  { apply (sorted_StronglySorted String.leb id String.leb_total string_leb_trans false). }
  split_and!; [apply sorted_Permutation|exact Hs|].
  intros Hnd. rewrite <- (sorted_Permutation String.leb id false) in Hnd.
  induction Hs as [|x names _ IH Hx]; [constructor|].
  apply NoDup_cons in Hnd as [Hx' Hnd]. constructor; [auto|].
  apply Forall_forall. intros y Hy. apply string_ltb_leb. split.
  - by eapply Forall_forall in Hx.
  - by intros ->.
Qed.

Lemma sorted_names_unique (l1 l2 : list string) :
  l1 ≡ₚ l2 -> sorted String.leb id false l1 = sorted String.leb id false l2.
Proof.
  intros Hp.
  apply (StronglySorted_unique_strong (fun a b => String.leb a b = true)).
  - intros a b _ _. apply String.leb_antisym.
  - apply sorted_names.
  - apply sorted_names.
  - by rewrite !sorted_Permutation.
Qed.

(** ** The handlers over the aggregation (titanic.py, lines 29-53) *)

(** The grouping of a data set whose records carry the fields. *)
Lemma analyze_grouping (traffic_data : list record) (by_key : string) :
  Forall (fun ship => has_key by_key ship /\ has_key SHIP_NAME_KEY ship) traffic_data ->
  exists d,
    analyze_traffic_data_by traffic_data by_key false = Ok d
    /\ keys d = first_seen (field_values by_key traffic_data)
    /\ NoDup (keys d)
    /\ (forall k g, (k, g) ∈ d -> forall n,
          n ∈ g <-> exists ship, ship ∈ traffic_data /\ ship !! by_key = Some k
                                 /\ ship !! SHIP_NAME_KEY = Some n).
Proof.
  intros Hkeys. destruct (entries_exist _ _ Hkeys) as [ps Hps].
  exists (foldl add_entry [] ps).
  assert (Hnodup : NoDup (keys (foldl add_entry [] ps))).
  { rewrite keys_foldl_nil. apply first_seen_NoDup. }
  split_and!; [| |done|].
  - unfold analyze_traffic_data_by. by rewrite (analyze_loop_foldl _ _ _ ps Hps).
  - by rewrite keys_foldl_nil, (entries_fst _ _ _ Hps).
  - intros k g Hkg n. rewrite <- (entries_elem_of _ _ _ _ _ Hps).
    transitivity (exists g', (k, g') ∈ foldl add_entry [] ps /\ n ∈ g').
    + split; [by exists g|]. intros (g' & Hkg' & Hn).
      apply (dict_getitem_unique _ _ _ Hnodup) in Hkg, Hkg'. congruence.
    + rewrite foldl_add_member. split; [|auto].
      by intros [(g' & ?%elem_of_nil & _)|?].
Qed.

Lemma analyze_ranked (traffic_data : list record) (by_key : string) d :
  analyze_traffic_data_by traffic_data by_key false = Ok d ->
  analyze_traffic_data_by traffic_data by_key true
  = Ok (sorted Nat.leb (fun x : string * gset string => size x.2) true d).
Proof.
  unfold analyze_traffic_data_by.
  destruct (analyze_loop by_key [] traffic_data); simpl; [|done]. by intros [= ->].
Qed.

Lemma slice_to_nonneg {A} (l : list A) (n : Z) :
  0 <= n -> slice_to l n = take (Z.to_nat n `min` length l) l.
Proof.
  intros Hn. unfold slice_to. rewrite (proj2 (Z.leb_le 0 n)) by done.
  destruct (decide (Z.to_nat n <= length l)%nat).
  - by rewrite Nat.min_l.
  - rewrite Nat.min_r by lia. rewrite !take_ge; [done|lia..].
Qed.

Section handlers.
Context `{Externals}.

(** C7. [top_n_countries] with a positive count [n] prints the first
    min(n, number of distinct countries) entries of the ranked country
    grouping, each as "name: count" with the cardinality of the country's
    set of ship names (and then an empty line); the ranking is by descending
    count, countries of equal count in the order they were first met; and
    without a count the handler takes 5. *)
Theorem top_n_countries_prints_first_n (traffic_data : list record) (n : Z) (w : World) :
  Forall (fun ship => has_key COUNTRY_KEY ship /\ has_key SHIP_NAME_KEY ship)
    traffic_data ->
  0 < n ->
  exists grouping ranked,
    analyze_traffic_data_by traffic_data COUNTRY_KEY false = Ok grouping
    /\ keys grouping = first_seen (field_values COUNTRY_KEY traffic_data)
    /\ (forall k g, (k, g) ∈ grouping -> forall name,
          name ∈ g <-> exists ship, ship ∈ traffic_data
                                    /\ ship !! COUNTRY_KEY = Some k
                                    /\ ship !! SHIP_NAME_KEY = Some name)
    /\ ranked ≡ₚ grouping
    /\ StronglySorted (fun x y => (size y.2 <= size x.2)%nat) ranked
    /\ (forall x y, size x.2 = size y.2 ->
          precedes x y ranked <-> precedes x y grouping)
    /\ top_n_countries traffic_data (Some n) w
       = (Ok tt,
          written w
            ((count_line
                <$> take (Z.to_nat n
                            `min` length (first_seen (field_values COUNTRY_KEY traffic_data)))
                      ranked)
             ++ [Print ""]))
    /\ top_n_countries traffic_data None w = top_n_countries traffic_data (Some 5) w.
Proof.
  intros Hkeys Hn.
  destruct (analyze_grouping _ _ Hkeys) as (d & Hd & Hk & _ & Hmem).
  pose proof (analyze_ranked _ _ _ Hd) as Hr.
  exists d, (sorted Nat.leb (fun x : string * gset string => size x.2) true d).
  destruct (sorted_descending (fun x : string * gset string => size x.2) d)
    as (Hperm & Hsorted & Hties).
  split_and!; try done.
  unfold top_n_countries, mbind, M_bind, lift. simpl. rewrite Hr.
  rewrite print_iterable_value_run, slice_to_nonneg by lia.
  rewrite (Permutation_length Hperm), <- Hk. unfold keys. by rewrite length_fmap.
Qed.

(** C8. [get_all_countries] prints the distinct countries of the data set
    in ascending order, one per line (and then an empty line), whatever the
    order of the records. *)
Theorem get_all_countries_prints_sorted (traffic_data : list record) (w : World) :
  Forall (fun ship => has_key COUNTRY_KEY ship /\ has_key SHIP_NAME_KEY ship)
    traffic_data ->
  exists countries,
    get_all_countries traffic_data w
    = (Ok tt, written w ((Print <$> countries) ++ [Print ""]))
    /\ StronglySorted (fun a b => String.ltb a b = true) countries
    /\ (forall c, c ∈ countries <->
          exists ship, ship ∈ traffic_data /\ ship !! COUNTRY_KEY = Some c)
    /\ (forall traffic_data',
          traffic_data' ≡ₚ traffic_data ->
          get_all_countries traffic_data' w = get_all_countries traffic_data w).
Proof.
  intros Hkeys.
  destruct (analyze_grouping _ _ Hkeys) as (d & Hd & Hk & Hnd & _).
  assert (Hrun : get_all_countries traffic_data w
                 = (Ok tt, written w ((Print <$> sorted String.leb id false (keys d))
                                      ++ [Print ""]))).
  { unfold get_all_countries, mbind, M_bind, lift. rewrite Hd.
    apply print_iterable_run. }
  exists (sorted String.leb id false (keys d)).
  destruct (sorted_names (keys d)) as (Hperm & _ & Hstrict).
  split_and!; [done|auto| |].
  - intros c. rewrite Hperm, Hk, first_seen_elem_of.
    unfold field_values. apply list_elem_of_omap.
  - intros data' Hp.
    assert (Hkeys' : Forall (fun ship => has_key COUNTRY_KEY ship
                                         /\ has_key SHIP_NAME_KEY ship) data')
      by (by rewrite Hp).
    destruct (analyze_grouping _ _ Hkeys') as (d' & Hd' & Hk' & Hnd' & _).
    rewrite Hrun. unfold get_all_countries, mbind, M_bind, lift. rewrite Hd'.
    rewrite print_iterable_run. do 4 f_equal.
    apply sorted_names_unique, NoDup_Permutation; [done..|].
    intros c. rewrite Hk, Hk', !first_seen_elem_of. unfold field_values.
    by rewrite Hp.
Qed.

(** C10. On the empty data set [draw_plot_map] raises StatisticsError (the
    mean of no latitudes) and saves nothing; so a run that saves the map had
    a non-empty data set. *)
Theorem draw_plot_map_needs_data :
  (forall w, draw_plot_map [] w = (Raise StatisticsError, w))
  /\ (forall traffic_data w w',
        draw_plot_map traffic_data w = (Ok tt, w') -> traffic_data <> []).
Proof.
  split; [done|]. by intros [|ship data] w w'.
Qed.

End handlers.

(** ** Aggregation: incomplete records and group sizes *)

Section aggregation_errors.

Lemma analyze_loop_app by_key d l1 l2 :
  analyze_loop by_key d (l1 ++ l2)
  = match analyze_loop by_key d l1 with
    | Ok d' => analyze_loop by_key d' l2
    | Raise e => Raise e
    end.
Proof.
  revert d. induction l1 as [|ship l1 IH]; intros d; simpl; [done|].
  unfold mbind, Result_bind. destruct (analyze_step by_key d ship); [apply IH|done].
Qed.

Lemma analyze_step_name_KeyError by_key d ship k :
  ship !! by_key = Some k -> ship !! SHIP_NAME_KEY = None ->
  analyze_step by_key d ship = Raise (KeyError SHIP_NAME_KEY).
Proof.
  intros Hk Hn. unfold analyze_step, getitem. rewrite Hk, Hn. simpl.
  destruct (dict_in k d) eqn:Hin; simpl.
  - apply dict_in_true, dict_getitem_in in Hin as [g ->]. done.
  - by rewrite dict_getitem_setitem.
Qed.

Lemma Forall_first_failure {A} (P : A -> Prop) `{!forall x, Decision (P x)} (l : list A) :
  ~ Forall P l -> exists pre x post, l = pre ++ x :: post /\ Forall P pre /\ ~ P x.
Proof.
  induction l as [|x l IH]; intros Hn; [by destruct Hn|].
  destruct (decide (P x)) as [Hx|Hx].
  - destruct IH as (pre & y & post & -> & Hpre & Hy).
    { intros Hl. apply Hn. by constructor. }
    exists (x :: pre), y, post. split_and!; [done|by constructor|done].
  - by exists [], x, l.
Qed.

Lemma analyze_incomplete pre ship post by_key is_sorted :
  Forall (fun s => has_key by_key s /\ has_key SHIP_NAME_KEY s) pre ->
  ~ (has_key by_key ship /\ has_key SHIP_NAME_KEY ship) ->
  analyze_traffic_data_by (pre ++ ship :: post) by_key is_sorted
  = Raise (KeyError (if decide (has_key by_key ship) then SHIP_NAME_KEY else by_key)).
Proof.
  intros Hpre Hship. destruct (entries_exist _ _ Hpre) as [ps Hps].
  unfold analyze_traffic_data_by.
  rewrite analyze_loop_app, (analyze_loop_foldl _ _ _ ps Hps). simpl.
  destruct (decide (has_key by_key ship)) as [[k Hk]|Hk].
  - rewrite (analyze_step_name_KeyError _ _ _ k); [done..|].
    apply eq_None_not_Some. intros Hn. apply Hship. split; [by exists k|done].
  - rewrite analyze_step_KeyError; [done|]. by apply eq_None_not_Some.
Qed.

Lemma analyze_Ok_complete traffic_data by_key is_sorted d :
  analyze_traffic_data_by traffic_data by_key is_sorted = Ok d ->
  Forall (fun ship => has_key by_key ship /\ has_key SHIP_NAME_KEY ship) traffic_data.
Proof.
  intros Hd.
  destruct (decide (Forall (fun ship => has_key by_key ship
                                        /\ has_key SHIP_NAME_KEY ship)
                      traffic_data)) as [|Hn]; [done|].
  destruct (Forall_first_failure _ _ Hn) as (pre & x & post & -> & Hpre & Hx).
  by rewrite (analyze_incomplete _ _ _ _ _ Hpre Hx) in Hd.
Qed.

Lemma analyze_Ok_unranked traffic_data by_key is_sorted d :
  analyze_traffic_data_by traffic_data by_key is_sorted = Ok d ->
  exists d0, analyze_traffic_data_by traffic_data by_key false = Ok d0 /\ d ≡ₚ d0.
Proof.
  unfold analyze_traffic_data_by.
  destruct (analyze_loop by_key [] traffic_data) as [d0|]; simpl; [|done].
  destruct is_sorted; intros [= <-]; exists d0; split; try done.
  apply sorted_Permutation.
Qed.

Lemma size_list_to_set_le (l : list string) :
  (size (list_to_set (C := gset string) l) <= length l)%nat.
Proof.
  induction l as [|x l IH]; [done|]. rewrite list_to_set_cons. simpl.
  rewrite size_union_alt, size_singleton.
  assert (list_to_set (C := gset string) l ∖ {[x]} ⊆ list_to_set l) as Hsub.
  { intros y. rewrite elem_of_difference. tauto. }
  apply subseteq_size in Hsub. lia.
Qed.

Lemma length_field_values by_key (l : list record) :
  (length (field_values by_key l) <= length l)%nat.
Proof.
  unfold field_values, omap. induction l as [|x l IH]; simpl; [done|].
  destruct (x !! by_key); simpl; lia.
Qed.

End aggregation_errors.

(** X1. [analyze_traffic_data_by] returns a grouping exactly when every
    record carries the grouping field and the ship name, whether the result
    is ranked or not.  Otherwise it raises KeyError at the first incomplete
    record: the error names the grouping field when that record lacks it,
    and SHIPNAME when only the name is missing. *)
Theorem analyze_succeeds_iff_records_complete (traffic_data : list record)
    (by_key : string) (is_sorted : bool) :
  ((exists d, analyze_traffic_data_by traffic_data by_key is_sorted = Ok d)
   <-> Forall (fun ship => has_key by_key ship /\ has_key SHIP_NAME_KEY ship)
         traffic_data)
  /\ (forall pre ship post,
        traffic_data = pre ++ ship :: post ->
        Forall (fun s => has_key by_key s /\ has_key SHIP_NAME_KEY s) pre ->
        ~ (has_key by_key ship /\ has_key SHIP_NAME_KEY ship) ->
        analyze_traffic_data_by traffic_data by_key is_sorted
        = Raise (KeyError (if decide (has_key by_key ship)
                           then SHIP_NAME_KEY else by_key))).
Proof.
  split.
  - split.
    + intros [d Hd]. by eapply analyze_Ok_complete.
    + intros Hk. destruct (analyze_grouping _ _ Hk) as (d & Hd & _).
      destruct is_sorted; [|by exists d].
      eexists. by apply analyze_ranked.
  - intros pre ship post -> Hpre Hship. by apply analyze_incomplete.
Qed.

(** X2. In the grouping returned by [analyze_traffic_data_by], ranked or
    not, the group of a field value is the set of the names of the records
    with that value: it is never empty, and a name that several such records
    share is counted once, so its size is at most the number of those
    records. *)
Theorem analyze_counts_distinct_names (traffic_data : list record) (by_key : string)
    (is_sorted : bool) (d : list (string * gset string)) :
  analyze_traffic_data_by traffic_data by_key is_sorted = Ok d ->
  forall k g, (k, g) ∈ d ->
    g = list_to_set (field_values SHIP_NAME_KEY
                       (filter (fun ship : record => ship !! by_key = Some k)
                          traffic_data))
    /\ (1 <= size g
           <= length (filter (fun ship : record => ship !! by_key = Some k)
                        traffic_data))%nat.
Proof.
  intros Hd k g Hkg.
  pose proof (analyze_Ok_complete _ _ _ _ Hd) as Hc.
  destruct (analyze_Ok_unranked _ _ _ _ Hd) as (d0 & Hd0 & Hperm).
  destruct (analyze_grouping _ _ Hc) as (d1 & Hd1 & Hkeys & _ & Hmem).
  assert (d1 = d0) as -> by congruence.
  rewrite Hperm in Hkg.
  assert (Hg : g = list_to_set (field_values SHIP_NAME_KEY
                       (filter (fun ship : record => ship !! by_key = Some k)
                          traffic_data))).
  { apply set_eq. intros n. rewrite (Hmem k g Hkg n), elem_of_list_to_set.
    unfold field_values. rewrite list_elem_of_omap.
    split.
    - intros (ship & Hin & Hk & Hn). exists ship. split; [|done].
      by apply list_elem_of_filter.
    - intros (ship & [Hk Hin]%list_elem_of_filter & Hn). by exists ship. }
  split; [exact Hg|]. split.
  - assert (k ∈ keys d0) as Hk.
    { unfold keys. apply list_elem_of_fmap. by exists (k, g). }
    rewrite Hkeys, first_seen_elem_of in Hk. unfold field_values in Hk.
    apply list_elem_of_omap in Hk as (ship & Hin & Hk).
    rewrite Forall_forall in Hc. destruct (Hc ship Hin) as [_ [n Hn]].
    assert (n ∈ g) as Hng by (apply (Hmem k g Hkg n); by exists ship).
    assert (size g <> 0%nat); [|lia].
    apply size_non_empty_iff. intros Hz. rewrite Hz in Hng.
    by apply not_elem_of_empty in Hng.
  - rewrite Hg at 1.
    etransitivity; [apply size_list_to_set_le|apply length_field_values].
Qed.

Section ship_types.
Context `{Externals}.

(** X3. On a data set whose records all carry the type and the ship name,
    [get_all_ship_types] writes one "type: count" line for every distinct
    type (none is left out), by descending count and with types of equal
    count in the order they were first met, then an empty line.  It reads
    nothing and does not fail. *)
Theorem get_all_ship_types_prints_every_type (traffic_data : list record) (w : World) :
  Forall (fun ship => has_key TYPE_KEY ship /\ has_key SHIP_NAME_KEY ship)
    traffic_data ->
  exists grouping ranked,
    analyze_traffic_data_by traffic_data TYPE_KEY false = Ok grouping
    /\ keys grouping = first_seen (field_values TYPE_KEY traffic_data)
    /\ ranked ≡ₚ grouping
    /\ StronglySorted (fun x y => (size y.2 <= size x.2)%nat) ranked
    /\ (forall x y, size x.2 = size y.2 ->
          precedes x y ranked <-> precedes x y grouping)
    /\ get_all_ship_types traffic_data w
       = (Ok tt, written w ((count_line <$> ranked) ++ [Print ""])).
Proof.
  intros Hkeys.
  destruct (analyze_grouping _ _ Hkeys) as (d & Hd & Hk & _ & _).
  pose proof (analyze_ranked _ _ _ Hd) as Hr.
  exists d, (sorted Nat.leb (fun x : string * gset string => size x.2) true d).
  destruct (sorted_descending (fun x : string * gset string => size x.2) d)
    as (Hperm & Hsorted & Hties).
  split_and!; try done.
  unfold get_all_ship_types, mbind, M_bind, lift. simpl. rewrite Hr.
  apply print_iterable_value_run.
Qed.

End ship_types.

(** ** The handlers and the console *)

Section mapM_facts.
Context {A B : Type} (f : A -> Result B).

Lemma mapM_cons (x : A) (l : list A) :
  mapM f (x :: l) = y ← f x; k ← mapM f l; mret (y :: k).
Proof. done. Qed.

Lemma mapM_Ok (l : list A) (k : list B) :
  Forall2 (fun x y => f x = Ok y) l k -> mapM f l = Ok k.
Proof.
  induction 1 as [|x y l k Hx _ IH]; [done|].
  by rewrite mapM_cons, Hx, IH.
Qed.

Lemma mapM_Raise (pre : list A) (x : A) (post : list A) (k : list B) (e : exn) :
  Forall2 (fun x y => f x = Ok y) pre k -> f x = Raise e ->
  mapM f (pre ++ x :: post) = Raise e.
Proof.
  intros Hpre Hx. induction Hpre as [|x' y l k' Hx' _ IH].
  - by rewrite app_nil_l, mapM_cons, Hx.
  - by rewrite <- app_comm_cons, mapM_cons, Hx', IH.
Qed.

End mapM_facts.

Section console_handlers.
Context `{Externals}.

Lemma for_each_emit {A} (body : A -> M unit) (g : A -> event) (l : list A) w :
  (forall x w, body x w = (Ok tt, written w [g x])) ->
  for_each l body w = (Ok tt, written w (g <$> l)).
Proof.
  intros Hbody. revert w. induction l as [|x l IH]; intros w; simpl.
  - by rewrite written_nil.
  - unfold mbind, M_bind. by rewrite Hbody, IH, written_app.
Qed.

Lemma print_functions_run (dispatch_dict : list string) w :
  print_functions dispatch_dict w
  = (Ok tt,
     written w (Print (String "010" "Available commands:")
                :: (Print <$> (help_line <$> dispatch_dict)) ++ [Print ""])).
Proof.
  unfold print_functions, mbind, M_bind. rewrite print_run.
  rewrite (for_each_emit _ (fun func => Print (help_line func))).
  - rewrite print_run, !written_app. by rewrite <- list_fmap_compose.
  - intros func w'. unfold help_line. by destruct (bool_decide _).
Qed.

Lemma getitem_float key ship v :
  float_field key ship v -> getitem ship key ≫= float = Ok v.
Proof. intros (s & Hs & Hv). unfold getitem. by rewrite Hs. Qed.

(** X5. When every record carries a speed that [float] accepts,
    [save_speed_histogram] prompts for a name, reads one line, draws the
    speeds (in record order, 14 bins, green) onto the current figure, saves
    the figure as the name followed by ".png" and reports that file.  The
    name is taken as typed, and the figure is not cleared: it keeps what
    earlier calls drew. *)
Theorem save_speed_histogram_saves_png (traffic_data : list record)
    (speeds : list float_t) (file_name : string) rest tr fig :
  Forall2 (float_field SPEED_KEY) traffic_data speeds ->
  save_speed_histogram traffic_data
    {| stdin := file_name :: rest; trace := tr; figure := fig |}
  = (Ok tt,
     {| stdin := rest;
        trace := tr ++ [Prompt "What's the file name should be? ";
                        SaveFig (file_name +:+ ".png") (fig ++ [speed_histogram speeds]);
                        Print ("The ship speed histogram was saved as "
                               +:+ file_name +:+ ".png")];
        figure := fig ++ [speed_histogram speeds] |}).
Proof.
  intros Hs.
  assert (Hm : mapM (fun ship => getitem ship SPEED_KEY ≫= float) traffic_data
               = Ok speeds).
  { apply mapM_Ok. eapply Forall2_impl; [exact Hs|]. apply getitem_float. }
  unfold save_speed_histogram, mbind at 1 2 3 4, M_bind, lift, input, readline, emit.
  simpl. rewrite Hm. simpl. rewrite print_run. unfold written, speed_histogram. simpl.
  by rewrite <- !app_assoc.
Qed.

(** X6. [save_speed_histogram] asks for the file name before it looks at
    the data: at the end of the input it raises EOFError right after the
    prompt, whatever the data; and when a record has no usable speed the
    name has been asked for and read, nothing is drawn, saved or reported,
    and the error is KeyError "SPEED" if the field is missing. *)
Theorem save_speed_histogram_fails_after_prompt (traffic_data : list record) tr fig :
  save_speed_histogram traffic_data {| stdin := []; trace := tr; figure := fig |}
  = (Raise EOFError,
     {| stdin := []; trace := tr ++ [Prompt "What's the file name should be? "];
        figure := fig |})
  /\ (forall pre ship post speeds file_name rest,
        traffic_data = pre ++ ship :: post ->
        Forall2 (float_field SPEED_KEY) pre speeds ->
        (forall v, ~ float_field SPEED_KEY ship v) ->
        exists e,
          save_speed_histogram traffic_data
            {| stdin := file_name :: rest; trace := tr; figure := fig |}
          = (Raise e,
             {| stdin := rest;
                trace := tr ++ [Prompt "What's the file name should be? "];
                figure := fig |})
          /\ (ship !! SPEED_KEY = None -> e = KeyError SPEED_KEY)).
Proof.
  split; [done|].
  intros pre ship post speeds file_name rest -> Hpre Hbad.
  assert (exists e, getitem ship SPEED_KEY ≫= float = Raise e
                    /\ (ship !! SPEED_KEY = None -> e = KeyError SPEED_KEY))
    as (e & He & Hnone).
  { unfold getitem. destruct (ship !! SPEED_KEY) as [s|] eqn:Hs; simpl.
    - destruct (float s) as [v|e] eqn:Hv.
      + destruct (Hbad v). by exists s.
      + exists e. by split.
    - by exists (KeyError SPEED_KEY). }
  exists e. split; [|exact Hnone].
  assert (Hm : mapM (fun ship => getitem ship SPEED_KEY ≫= float)
                 (pre ++ ship :: post) = Raise e).
  { apply (mapM_Raise _ _ _ _ speeds); [|done].
    eapply Forall2_impl; [exact Hpre|]. apply getitem_float. }
  unfold save_speed_histogram, mbind at 1 2 3 4, M_bind, lift, input, readline, emit.
  simpl. by rewrite Hm.
Qed.

Lemma mapM_markers (traffic_data : list record)
    (markers : list (string * float_t * float_t)) :
  Forall2 marker_of traffic_data markers ->
  mapM (fun ship : record =>
          name ← getitem ship SHIP_NAME_KEY;
          lat ← getitem ship LATITUDE_KEY ≫= float;
          lon ← getitem ship LONGITUDE_KEY ≫= float;
          Ok (name, lat, lon)) traffic_data = Ok markers
  /\ mapM (fun ship => getitem ship LATITUDE_KEY ≫= float) traffic_data
     = Ok markers.*1.*2
  /\ mapM (fun ship => getitem ship LONGITUDE_KEY ≫= float) traffic_data
     = Ok markers.*2.
Proof.
  intros Hm. split_and!; apply mapM_Ok.
  - eapply Forall2_impl; [exact Hm|].
    intros ship [[name lat] lon] (Hn & Hlat & Hlon). simpl in *.
    rewrite (getitem_float _ _ _ Hlat), (getitem_float _ _ _ Hlon).
    unfold getitem. by rewrite Hn.
  - rewrite <- list_fmap_compose. apply Forall2_fmap_r.
    eapply Forall2_impl; [exact Hm|].
    intros ship m (_ & Hlat & _). by apply getitem_float.
  - apply Forall2_fmap_r. eapply Forall2_impl; [exact Hm|].
    intros ship m (_ & _ & Hlon). by apply getitem_float.
Qed.

(** X7. On a non-empty data set whose records all carry a name and a
    latitude and longitude that [float] accepts, [draw_plot_map] saves
    "ship_map.html" with one marker per record, in record order (records
    are not merged by name), centred on the mean latitude and the mean
    longitude; it prints nothing and reads nothing. *)
Theorem draw_plot_map_marks_every_record (traffic_data : list record)
    (markers : list (string * float_t * float_t)) (w : World) :
  traffic_data <> [] ->
  Forall2 marker_of traffic_data markers ->
  draw_plot_map traffic_data w
  = (Ok tt,
     written w [SaveMap "ship_map.html"
                  (fmean markers.*1.*2, fmean markers.*2) markers])
  /\ length markers = length traffic_data.
Proof.
  intros Hne Hm. split; [|symmetry; by eapply Forall2_length].
  destruct (mapM_markers _ _ Hm) as (Hloc & Hlat & Hlon).
  unfold draw_plot_map, mbind at 1 2 3, M_bind, lift. rewrite Hloc, Hlat, Hlon.
  destruct Hm as [|ship m data ms _ _]; [done|]. done.
Qed.

Lemma search_results_empty q : search_results q ∅ = [].
Proof.
  unfold search_results, process_extract.
  pose proof (set_iter_perm ∅) as Hp. rewrite elements_empty in Hp.
  by apply Permutation_nil_r in Hp as ->.
Qed.

Lemma ships_names_of_Raise traffic_data :
  ~ Forall (has_key SHIP_NAME_KEY) traffic_data ->
  ships_names_of traffic_data = Raise (KeyError SHIP_NAME_KEY).
Proof.
  intros Hn.
  destruct (Forall_first_failure (has_key SHIP_NAME_KEY) _ Hn)
    as (pre & ship & post & -> & Hpre & Hship).
  assert (exists names, Forall2 (fun s n => getitem s SHIP_NAME_KEY = Ok n) pre names)
    as [names Hnames].
  { clear Hn. induction Hpre as [|s pre [n Hs] _ [names IH]]; [by exists []|].
    exists (n :: names). constructor; [|done]. unfold getitem. by rewrite Hs. }
  unfold ships_names_of.
  rewrite (mapM_Raise _ _ _ _ names (KeyError SHIP_NAME_KEY)); [done..|].
  unfold getitem. apply eq_None_not_Some in Hship. by rewrite Hship.
Qed.

Lemma ships_names_of_Ok traffic_data :
  Forall (has_key SHIP_NAME_KEY) traffic_data ->
  ships_names_of traffic_data
  = Ok (list_to_set (field_values SHIP_NAME_KEY traffic_data)).
Proof.
  intros Hk. unfold ships_names_of.
  rewrite (mapM_Ok _ _ (field_values SHIP_NAME_KEY traffic_data)); [done|].
  unfold field_values, omap.
  induction Hk as [|s l [n Hs] _ IH]; simpl; [constructor|].
  rewrite Hs. constructor; [|done]. unfold getitem. by rewrite Hs.
Qed.

(** X8. [search_ship_by_name] collects the ship names before it asks for
    the query: a record without a name makes it raise KeyError "SHIPNAME"
    with nothing written and no line read.  With all names present it
    prompts and reads one line (EOFError right after the prompt at the end
    of the input), and on the empty data set every query is answered with
    "No results found". *)
Theorem search_ship_by_name_collects_names_first (traffic_data : list record)
    (w : World) :
  (~ Forall (has_key SHIP_NAME_KEY) traffic_data ->
   search_ship_by_name traffic_data w = (Raise (KeyError SHIP_NAME_KEY), w))
  /\ (Forall (has_key SHIP_NAME_KEY) traffic_data -> stdin w = [] ->
      search_ship_by_name traffic_data w
      = (Raise EOFError, written w [Prompt "Enter the search query: "]))
  /\ (forall q rest,
        traffic_data = [] -> stdin w = q :: rest ->
        search_ship_by_name traffic_data w
        = (Ok tt,
           {| stdin := rest;
              trace := trace w ++ [Prompt "Enter the search query: ";
                                   Print "No results found"];
              figure := figure w |})).
Proof.
  split_and!.
  - intros Hn. unfold search_ship_by_name, mbind, M_bind, lift.
    by rewrite ships_names_of_Raise.
  - intros Hk Hin. destruct w as [inp tr fig]. simpl in Hin. subst inp.
    unfold search_ship_by_name, mbind at 1, M_bind at 1, lift.
    by rewrite ships_names_of_Ok.
  - intros q rest -> Hin. destruct w as [inp tr fig]. simpl in *. subst inp.
    rewrite (search_ship_by_name_run _ ∅) by done.
    by rewrite search_results_empty.
Qed.

(** X4. The "help" command (with any surrounding whitespace) needs no
    data: for every data set it writes the heading, one line per entry of
    the dispatch table in table order (the name itself, "top_countries" with
    its parameter hint), and an empty line. *)
Theorem help_lists_the_dispatch_table (traffic_data : list record)
    (line : string) rest tr fig :
  strip line = "help" ->
  main_body traffic_data {| stdin := line :: rest; trace := tr; figure := fig |}
  = (Ok tt,
     line_read rest
       (tr ++ [Print (String "010" "Available commands:");
               Print "help"; Print "show_countries";
               Print "top_countries  <num_countries>"; Print "ships_by_types";
               Print "search_ship"; Print "speed_histogram"; Print "draw_map";
               Print ""]) fig)
  /\ (Print <$> (help_line <$> keys DISPATCH_DICT))
     = [Print "help"; Print "show_countries";
        Print "top_countries  <num_countries>"; Print "ships_by_types";
        Print "search_ship"; Print "speed_histogram"; Print "draw_map"].
Proof.
  intros Hs. split; [|done].
  unfold main_body. rewrite get_valid_action_command; rewrite Hs; [|done..].
  simpl. unfold mbind, M_bind, lift. simpl. by rewrite print_functions_run.
Qed.

End console_handlers.

(** ** The validator: what it raises and what it lets through *)

Section validator.
Context `{Externals} {V : Type} (dispatcher : dict V).

Lemma get_valid_action_EOF tr fig :
  get_valid_action dispatcher {| stdin := []; trace := tr; figure := fig |}
  = (Raise EOFError, {| stdin := []; trace := tr; figure := fig |}).
Proof. done. Qed.

Lemma rstrip_fixed s : no_blank_tail s = true -> rstrip s = s.
Proof.
  induction s as [|c s IH]; [done|].
  change (no_blank_tail (String c s))
    with (negb (blank (String c s)) && no_blank_tail s).
  intros [Hb Hs]%andb_true_iff. simpl. rewrite (IH Hs).
  destruct s as [|c' s']; [|done].
  unfold blank in Hb. simpl in Hb. rewrite andb_true_r in Hb.
  apply negb_true_iff in Hb. by rewrite Hb.
Qed.

Lemma strip_idemp s : strip (strip s) = strip s.
Proof.
  destruct (strip_stripped s) as [Hl Hr].
  unfold strip at 1. rewrite Hl. by apply rstrip_fixed.
Qed.

(** X9. [get_valid_action] raises EOFError exactly at the end of the input
    (nothing is written then), and on a line it has read it raises nothing
    but ValueError with one of its three messages: the index [action[1]] is
    never out of range, and no other exception comes out of it. *)
Theorem get_valid_action_raises_ValueError_or_EOFError (w : World) (e : exn) (w' : World) :
  get_valid_action dispatcher w = (Raise e, w') ->
  (stdin w = [] /\ e = EOFError /\ w' = w)
  \/ (stdin w <> []
      /\ (e = ValueError "Empty input"
          \/ e = ValueError "Parameter is not integer"
          \/ e = ValueError "Command is not in dispatcher")).
Proof.
  destruct w as [[|line rest] tr fig].
  { rewrite get_valid_action_EOF. intros [= <- <-]. by left. }
  intros Hv. right. split; [done|]. revert Hv.
  destruct (decide (strip line = "")) as [Hb|Hne].
  { rewrite get_valid_action_blank by done. intros [= <- <-]. by left. }
  destruct (str_in " " (strip line) && startswith (strip line) "top_countries")
    eqn:Hrule.
  - pose proof Hrule as [Hsp _]%andb_true_iff.
    destruct (split_stripped_two line Hsp) as (tok & param & Hsplit & _).
    rewrite (get_valid_action_argument _ _ _ _ _ tok param) by done.
    destruct (isnumeric param); intros [= <- <-]. right. by left.
  - rewrite get_valid_action_command by done.
    destruct (negb (dict_in (strip line) dispatcher)
              || bool_decide (strip line = "top_countries")); intros [= <- <-].
    by do 2 right.
Qed.

(** X10. When [get_valid_action] returns, it has read exactly one line and
    written nothing, and the line's trimmed text is not empty.  Without a
    parameter, the action is the trimmed text itself, a key of the
    dispatcher other than "top_countries".  With a parameter, the trimmed
    text begins with "top_countries" and holds a space, the action and the
    parameter are its two fields, and the parameter is numeric. *)
Theorem get_valid_action_accepts (w : World) (action : string)
    (param : option string) (w' : World) :
  get_valid_action dispatcher w = (Ok (action, param), w') ->
  exists line,
    stdin w = line :: stdin w' /\ trace w' = trace w /\ figure w' = figure w
    /\ strip line <> ""
    /\ match param with
       | None =>
           action = strip line /\ action ∈ keys dispatcher
           /\ action <> "top_countries"
           /\ str_in " " action && startswith action "top_countries" = false
       | Some p =>
           split 1 (strip line) = [action; p] /\ isnumeric p = true
           /\ startswith (strip line) "top_countries" = true
           /\ str_in " " (strip line) = true
       end.
Proof.
  destruct w as [[|line rest] tr fig].
  { by rewrite get_valid_action_EOF. }
  destruct (decide (strip line = "")) as [Hb|Hne].
  { by rewrite get_valid_action_blank. }
  destruct (str_in " " (strip line) && startswith (strip line) "top_countries")
    eqn:Hrule.
  - pose proof Hrule as [Hsp Hst]%andb_true_iff.
    destruct (split_stripped_two line Hsp) as (tok & p & Hsplit & _).
    rewrite (get_valid_action_argument _ _ _ _ _ tok p) by done.
    destruct (isnumeric p) eqn:Hnum; intros [= <- <- <-].
    exists line. by split_and!.
  - rewrite get_valid_action_command by done.
    destruct (negb (dict_in (strip line) dispatcher)
              || bool_decide (strip line = "top_countries")) eqn:Hcmd;
      intros [= <- <- <-].
    apply orb_false_iff in Hcmd as [Hin Htop].
    apply negb_false_iff, dict_in_true in Hin.
    apply bool_decide_eq_false in Htop.
    exists line. by split_and!.
Qed.

(** X11. Whitespace around the typed line does not matter: trimming is
    idempotent, and [get_valid_action] does on a line what it does on the
    trimmed line. *)
Theorem get_valid_action_ignores_surrounding_whitespace (line : string) rest tr fig :
  strip (strip line) = strip line
  /\ get_valid_action dispatcher {| stdin := line :: rest; trace := tr; figure := fig |}
     = get_valid_action dispatcher
         {| stdin := strip line :: rest; trace := tr; figure := fig |}.
Proof.
  split; [apply strip_idemp|].
  unfold get_valid_action, mbind, M_bind. rewrite !input_None_run.
  by rewrite strip_idemp.
Qed.

End validator.

(** ** The loop *)

Section forward_facts.
Context `{Externals}.

Lemma extends_refl w : extends w w.
Proof. by split_and!. Qed.

Lemma extends_trans w1 w2 w3 : extends w1 w2 -> extends w2 w3 -> extends w1 w3.
Proof.
  intros (Hs1 & Ht1 & Hf1) (Hs2 & Ht2 & Hf2).
  split_and!; by etransitivity.
Qed.

Lemma forward_ret {A} (a : A) : forward (M_ret A a).
Proof. intros w r w' [= <- <-]. apply extends_refl. Qed.

Lemma forward_lift {A} (r : Result A) : forward (lift r).
Proof. intros w r' w' [= <- <-]. apply extends_refl. Qed.

Lemma forward_raise {A} (e : exn) : forward (raise (A := A) e).
Proof. intros w r' w' [= <- <-]. apply extends_refl. Qed.

Lemma forward_emit (e : event) : forward (emit e).
Proof.
  intros w r w' [= <- <-]. split_and!; simpl; [done| |done].
  by apply prefix_app_r.
Qed.

Lemma forward_print text : forward (print text).
Proof. apply forward_emit. Qed.

Lemma forward_readline : forward readline.
Proof.
  intros [[|line rest] tr fig] r w'; unfold readline; simpl; intros [= <- <-].
  - apply extends_refl.
  - split_and!; simpl; [|done..]. by apply suffix_cons_r.
Qed.

Lemma forward_bind {A B} (f : A -> M B) (m : M A) :
  forward m -> (forall a, forward (f a)) -> forward (M_bind A B f m).
Proof.
  intros Hm Hf w r w'. unfold M_bind.
  destruct (m w) as [[a|e] w1] eqn:Hmw.
  - intros Hfa. eapply extends_trans; [by eapply Hm|by eapply Hf].
  - intros [= <- <-]. by eapply Hm.
Qed.

Lemma forward_input prompt : forward (input prompt).
Proof.
  unfold input. apply forward_bind; [|intros _; apply forward_readline].
  destruct prompt; [apply forward_emit|apply forward_ret].
Qed.

Lemma forward_for_each {A} (l : list A) (body : A -> M unit) :
  (forall x, forward (body x)) -> forward (for_each l body).
Proof.
  intros Hb. induction l as [|x l IH]; simpl; [apply forward_ret|].
  apply forward_bind; [apply Hb|by intros _].
Qed.

Lemma forward_print_iterable l : forward (print_iterable l).
Proof.
  apply forward_bind; [|intros _; apply forward_print].
  apply forward_for_each. intros x. apply forward_print.
Qed.

Lemma forward_print_iterable_value l : forward (print_iterable_value l).
Proof.
  apply forward_bind; [|intros _; apply forward_print].
  apply forward_for_each. intros [k g]. apply forward_print.
Qed.

Lemma forward_get_valid_action {V} (dispatcher : dict V) :
  forward (get_valid_action dispatcher).
Proof.
  apply forward_bind; [apply forward_input|]. intros line. cbv beta zeta.
  destruct (bool_decide (strip line = "")); [apply forward_raise|].
  destruct (str_in " " (strip line) && startswith (strip line) "top_countries").
  - apply forward_bind; [apply forward_lift|]. intros param. cbv beta.
    destruct (negb (isnumeric param)).
    + apply forward_bind; [apply forward_print|intros _; apply forward_raise].
    + apply forward_bind; [apply forward_lift|]. intros a0.
      apply forward_bind; [apply forward_lift|]. intros a1. apply forward_ret.
  - destruct (negb (dict_in (strip line) dispatcher)
              || bool_decide (strip line = "top_countries")); [|apply forward_ret].
    apply forward_bind; [apply forward_print|intros _; apply forward_raise].
Qed.

Lemma forward_print_functions names : forward (print_functions names).
Proof.
  apply forward_bind; [apply forward_print|]. intros _.
  apply forward_bind; [|intros _; apply forward_print].
  apply forward_for_each. intros func.
  destruct (bool_decide (func = "top_countries")); apply forward_print.
Qed.

Lemma forward_get_all_countries data : forward (get_all_countries data).
Proof.
  apply forward_bind; [apply forward_lift|]. intros d. apply forward_print_iterable.
Qed.

Lemma forward_top_n_countries data num : forward (top_n_countries data num).
Proof.
  apply forward_bind; [apply forward_lift|]. intros d.
  apply forward_print_iterable_value.
Qed.

Lemma forward_get_all_ship_types data : forward (get_all_ship_types data).
Proof.
  apply forward_bind; [apply forward_lift|]. intros d.
  apply forward_print_iterable_value.
Qed.

Lemma forward_search_ship_by_name data : forward (search_ship_by_name data).
Proof.
  apply forward_bind; [apply forward_lift|]. intros names.
  apply forward_bind; [apply forward_input|]. intros q.
  destruct (search_results q names); [apply forward_print|].
  apply forward_bind; [apply forward_print|intros _; apply forward_print_iterable].
Qed.

Lemma forward_save_speed_histogram data : forward (save_speed_histogram data).
Proof.
  apply forward_bind; [apply forward_input|]. intros file_name.
  apply forward_bind; [apply forward_lift|]. intros speeds.
  apply forward_bind.
  { intros w r w' [= <- <-]. split_and!; simpl; [done..|]. by apply prefix_app_r. }
  intros _. apply forward_bind; [|intros _; apply forward_print].
  intros w r w' Hw. by apply forward_emit in Hw.
Qed.

Lemma forward_draw_plot_map data : forward (draw_plot_map data).
Proof.
  apply forward_bind; [apply forward_lift|]. intros locs.
  apply forward_bind; [apply forward_lift|]. intros lat.
  apply forward_bind; [apply forward_lift|]. intros lon. apply forward_emit.
Qed.

Lemma dispatch_cases (P : string -> handler -> Prop) :
  P "help" (fun _ _ => print_functions DISPATCH_KEYS) ->
  P "show_countries" (fun data_dict _ => get_all_countries data_dict) ->
  P "top_countries"
    (fun data_dict num =>
       M_bind _ _ (fun n => top_n_countries data_dict (Some n)) (lift (int num))) ->
  P "ships_by_types" (fun data_dict _ => get_all_ship_types data_dict) ->
  P "search_ship" (fun data_dict _ => search_ship_by_name data_dict) ->
  P "speed_histogram" (fun data_dict _ => save_speed_histogram data_dict) ->
  P "draw_map" (fun data_dict _ => draw_plot_map data_dict) ->
  forall action h, dict_getitem DISPATCH_DICT action = Ok h -> P action h.
Proof.
  intros H1 H2 H3 H4 H5 H6 H7 action h. unfold DISPATCH_DICT, dict_getitem.
  repeat (destruct (decide _) as [->|_]; [by intros [= <-]|]). done.
Qed.

Lemma forward_dispatch data action h param :
  dict_getitem DISPATCH_DICT action = Ok h -> forward (h data param).
Proof.
  revert action h. apply (dispatch_cases (fun _ h => forward (h data param))).
  - apply forward_print_functions.
  - apply forward_get_all_countries.
  - apply forward_bind; [apply forward_lift|]. intros n. apply forward_top_n_countries.
  - apply forward_get_all_ship_types.
  - apply forward_search_ship_by_name.
  - apply forward_save_speed_histogram.
  - apply forward_draw_plot_map.
Qed.

Lemma forward_main_body data : forward (main_body data).
Proof.
  intros w r w'. unfold main_body.
  destruct (get_valid_action DISPATCH_DICT w) as [[[action param]|e] w1] eqn:Hv;
    apply forward_get_valid_action in Hv.
  - intros Hh. eapply extends_trans; [exact Hv|]. revert Hh.
    unfold mbind, M_bind, lift.
    destruct (dict_getitem DISPATCH_DICT action) as [h|e] eqn:Hg.
    + by apply (forward_dispatch _ _ _ _ Hg).
    + intros [= <- <-]. apply extends_refl.
  - destruct e; by intros [= <- <-].
Qed.

Lemma get_valid_action_cases {V} (dispatcher : dict V) line rest tr fig :
  get_valid_action dispatcher {| stdin := line :: rest; trace := tr; figure := fig |}
  = (Raise (ValueError "Empty input"), line_read rest tr fig)
  \/ (exists param,
        get_valid_action dispatcher
          {| stdin := line :: rest; trace := tr; figure := fig |}
        = (Raise (ValueError "Parameter is not integer"),
           line_read rest (tr ++ [Print ("Unknown parameter " +:+ param)]) fig))
  \/ (exists tok param,
        isnumeric param = true
        /\ get_valid_action dispatcher
             {| stdin := line :: rest; trace := tr; figure := fig |}
           = (Ok (tok, Some param), line_read rest tr fig))
  \/ get_valid_action dispatcher {| stdin := line :: rest; trace := tr; figure := fig |}
     = (Raise (ValueError "Command is not in dispatcher"),
        line_read rest (tr ++ [Print ("Unknown command " +:+ strip line)]) fig)
  \/ (strip line <> "top_countries"
      /\ get_valid_action dispatcher
           {| stdin := line :: rest; trace := tr; figure := fig |}
         = (Ok (strip line, None), line_read rest tr fig)).
Proof.
  destruct (decide (strip line = "")) as [Hb|Hne].
  { left. by apply get_valid_action_blank. }
  destruct (str_in " " (strip line) && startswith (strip line) "top_countries")
    eqn:Hrule.
  - pose proof Hrule as [Hsp _]%andb_true_iff.
    destruct (split_stripped_two line Hsp) as (tok & param & Hsplit & _).
    rewrite (get_valid_action_argument _ _ _ _ _ tok param) by done.
    destruct (isnumeric param) eqn:Hnum.
    + do 2 right. left. by exists tok, param.
    + right. left. by exists param.
  - rewrite get_valid_action_command by done.
    destruct (negb (dict_in (strip line) dispatcher)
              || bool_decide (strip line = "top_countries")) eqn:Hcmd.
    + do 3 right. by left.
    + do 4 right. apply orb_false_iff in Hcmd as [_ Htop].
      by apply bool_decide_eq_false in Htop.
Qed.

Lemma get_valid_action_stdin {V} (dispatcher : dict V) line rest tr fig r w1 :
  get_valid_action dispatcher {| stdin := line :: rest; trace := tr; figure := fig |}
  = (r, w1) ->
  stdin w1 = rest.
Proof.
  destruct (get_valid_action_cases dispatcher line rest tr fig)
    as [->|[[p ->]|[(tok & p & _ & ->)|[->|[_ ->]]]]]; by intros [= <- <-].
Qed.

Lemma main_body_reads data w w' :
  main_body data w = (Ok tt, w') -> (length (stdin w') < length (stdin w))%nat.
Proof.
  destruct w as [[|line rest] tr fig]; [done|].
  unfold main_body.
  destruct (get_valid_action DISPATCH_DICT _) as [[[action param]|e] w1] eqn:Hv;
    apply get_valid_action_stdin in Hv.
  - unfold mbind, M_bind, lift.
    destruct (dict_getitem DISPATCH_DICT action) as [h|e] eqn:Hg; [|done].
    intros Hh. apply (forward_dispatch _ _ _ _ Hg) in Hh as [Hs _].
    apply suffix_length in Hs. rewrite Hv in Hs. simpl. lia.
  - destruct e; intros [= <-]. subst. simpl. lia.
Qed.

Lemma main_loop_ends data fuel w :
  (length (stdin w) < fuel)%nat ->
  exists e w',
    main_loop fuel data w = Some (e, w')
    /\ extends w w'
    /\ (stdin w = [] -> e = EOFError)
    /\ (forall fuel', (fuel <= fuel')%nat -> main_loop fuel' data w = Some (e, w')).
Proof.
  revert w. induction fuel as [|fuel IH]; intros w Hlen; [lia|].
  simpl. destruct (main_body data w) as [[[]|e] w1] eqn:Hb.
  - pose proof (main_body_reads _ _ _ Hb) as Hlt.
    destruct (IH w1 ltac:(lia)) as (e & w' & Hl & Hext & _ & Hmore).
    exists e, w'. split_and!; [done| | |].
    + eapply extends_trans; [|exact Hext]. by eapply forward_main_body.
    + intros Hin. rewrite Hin in Hlt. simpl in Hlt. lia.
    + intros [|fuel'] Hle; [lia|]. simpl. rewrite Hb. apply Hmore. lia.
  - exists e, w1. split_and!; [done| | |].
    + by eapply forward_main_body.
    + intros Hin. destruct w as [inp tr fig]. simpl in Hin. subst inp.
      unfold main_body in Hb. rewrite get_valid_action_EOF in Hb. congruence.
    + intros [|fuel'] Hle; [lia|]. simpl. by rewrite Hb.
Qed.

(** X13. [main] writes the greeting first and then runs the loop, which has
    no exit of its own and ends only by an exception.  On a finite input it
    does end: with more turns allowed than there are lines left, the run
    stops at an exception, the same one however many more turns are allowed,
    EOFError if there was no line at all.  Lines have only been read, and
    output only added after the greeting. *)
Theorem main_ends_on_finite_input (all_data : list record) (w : World) (fuel : nat) :
  (length (stdin w) < fuel)%nat ->
  exists e w',
    main fuel all_data w = Some (e, w')
    /\ (forall fuel', (fuel <= fuel')%nat -> main fuel' all_data w = Some (e, w'))
    /\ (stdin w = [] -> e = EOFError)
    /\ stdin w' `suffix_of` stdin w
    /\ (exists more, trace w' = trace w ++ Print welcome :: more)
    /\ figure w `prefix_of` figure w'.
Proof.
  intros Hlen. unfold main. rewrite print_run.
  destruct (main_loop_ends all_data fuel (written w [Print welcome]) Hlen)
    as (e & w' & Hl & (Hs & [more Ht] & Hf) & Heof & Hmore).
  exists e, w'. split_and!; [done|done|done|done| |done].
  exists more. rewrite Ht. simpl. by rewrite <- app_assoc.
Qed.

End forward_facts.

(** ** Commands on well-formed data *)

Section decimal_arguments.

Lemma isdecimal_not_space c : isdecimal_char c = true -> isspace_char c = false.
Proof.
  unfold isdecimal_char, isspace_char. intros [H1 H2]%andb_true_iff.
  apply N.leb_le in H1, H2.
  repeat match goal with
         | |- context [(?a <=? ord c)%N] =>
             first [rewrite (proj2 (N.leb_le a (ord c))) by lia
                   |rewrite (proj2 (N.leb_gt a (ord c))) by lia]
         | |- context [(ord c <=? ?a)%N] =>
             first [rewrite (proj2 (N.leb_le (ord c) a)) by lia
                   |rewrite (proj2 (N.leb_gt (ord c) a)) by lia]
         | |- context [(ord c =? ?a)%N] =>
             rewrite (proj2 (N.eqb_neq (ord c) a)) by lia
         end.
  done.
Qed.

Lemma isdecimal_not_int_space c :
  isdecimal_char c = true -> isspace_int_char c = false.
Proof.
  unfold isdecimal_char, isspace_int_char. intros [H1 H2]%andb_true_iff.
  apply N.leb_le in H1, H2.
  repeat match goal with
         | |- context [(?a <=? ord c)%N] =>
             first [rewrite (proj2 (N.leb_le a (ord c))) by lia
                   |rewrite (proj2 (N.leb_gt a (ord c))) by lia]
         | |- context [(ord c <=? ?a)%N] =>
             first [rewrite (proj2 (N.leb_le (ord c) a)) by lia
                   |rewrite (proj2 (N.leb_gt (ord c) a)) by lia]
         | |- context [(ord c =? ?a)%N] =>
             rewrite (proj2 (N.eqb_neq (ord c) a)) by lia
         end.
  done.
Qed.

Lemma int_run_decimal s acc digits :
  str_all isdecimal_char s = true -> 0 <= acc ->
  exists z, 0 <= z
            /\ int_run false acc digits s
               = Some (z, (digits + String.length s)%nat, "").
Proof.
  revert acc digits. induction s as [|c s IH]; intros acc digits Hs Hacc.
  - exists acc. simpl. by rewrite Nat.add_0_r.
  - simpl in *. apply andb_true_iff in Hs as [Hc Hs]. rewrite Hc.
    destruct (IH (10 * acc + (Z.of_N (ord c) - 48)) (S digits) Hs) as (z & Hz & ->).
    + unfold isdecimal_char in Hc. apply andb_true_iff in Hc as [Hc _].
      apply N.leb_le in Hc. lia.
    + exists z. split; [done|]. do 3 f_equal. lia.
Qed.

Lemma int_str_decimal s :
  s <> "" -> str_all isdecimal_char s = true ->
  (String.length s <= INT_MAX_STR_DIGITS)%nat ->
  exists n : nat, int_str s = Ok (Z.of_nat n).
Proof.
  intros Hne Hs Hlen.
  destruct (int_run_decimal s 0 0 Hs ltac:(lia)) as (z & Hz & Hrun).
  rewrite Nat.add_0_l in Hrun.
  exists (Z.to_nat z). rewrite Z2Nat.id by done.
  destruct s as [|c s]; [done|].
  assert (Hc : isdecimal_char c = true).
  { simpl in Hs. by apply andb_true_iff in Hs as [? _]. }
  assert (c <> "-"%char /\ c <> "+"%char) as [Hm Hp].
  { split; intros ->; by vm_compute in Hc. }
  assert (int_sign (String c s) = (false, String c s)) as Hsign.
  { unfold int_sign. destruct c as [[] [] [] [] [] [] [] []]; done. }
  unfold int_str. cbn [int_skip_space]. rewrite (isdecimal_not_int_space c Hc), Hsign.
  unfold int_unsigned. rewrite Hc, Hrun.
  by rewrite (proj2 (Nat.ltb_ge _ _) Hlen).
Qed.

Lemma int_str_Raise s e : int_str s = Raise e -> exists msg, e = ValueError msg.
Proof.
  unfold int_str. destruct (int_sign (int_skip_space s)) as [negative body].
  unfold int_unsigned, int_literal, int_too_long.
  destruct body as [|c body']; [intros [= <-]; eauto|].
  destruct (isdecimal_char c); [|intros [= <-]; eauto].
  destruct (int_run false 0 0 (String c body')) as [[[z digits] rest]|];
    [|intros [= <-]; eauto].
  destruct (INT_MAX_STR_DIGITS <? digits)%nat; [intros [= <-]; eauto|].
  destruct (int_skip_space rest); [done|intros [= <-]; eauto].
Qed.

End decimal_arguments.

Section commands.
Context `{Externals}.

Lemma decimal_isnumeric s :
  s <> "" -> str_all isdecimal_char s = true -> isnumeric s = true.
Proof.
  intros Hne Hs. destruct s as [|c0 s0]; [done|]. unfold isnumeric.
  revert Hs. generalize (String c0 s0). clear. intros s.
  induction s as [|c s IH]; simpl; [done|].
  intros [Hc Hs]%andb_true_iff. rewrite (IH Hs), andb_true_r.
  unfold isnumeric_char. by rewrite Hc.
Qed.

Lemma take_min_length {A} (n : nat) (l : list A) :
  take (n `min` length l) l = take n l.
Proof.
  destruct (decide (n <= length l)%nat).
  - by rewrite Nat.min_l.
  - rewrite Nat.min_r by lia. rewrite !take_ge; [done|lia..].
Qed.

Lemma top_n_countries_run data ranked (n : nat) w :
  analyze_traffic_data_by data COUNTRY_KEY true = Ok ranked ->
  top_n_countries data (Some (Z.of_nat n)) w
  = (Ok tt, written w ((count_line <$> take n ranked) ++ [Print ""])).
Proof.
  intros Hr. unfold top_n_countries, mbind, M_bind, lift. simpl. rewrite Hr.
  rewrite print_iterable_value_run, slice_to_nonneg by lia.
  by rewrite Nat2Z.id, take_min_length.
Qed.

(** X12. The command "top_countries" followed by whitespace (with a space in
    it) and decimal digits (no more of them than [int] converts, 4300), on a
    data set whose records all carry the country and the ship name: the
    digits are read by [int] as a number n that is never negative, and the
    turn writes the lines of the first n countries of the ranking (all of
    them when there are fewer, none when n is 0) and an empty line. *)
Theorem top_countries_command_prints_first_n (traffic_data : list record)
    (line ws digits : string) rest tr fig :
  Forall (fun ship => has_key COUNTRY_KEY ship /\ has_key SHIP_NAME_KEY ship)
    traffic_data ->
  strip line = "top_countries" +:+ ws +:+ digits ->
  ws <> "" -> blank ws = true -> str_in " " (strip line) = true ->
  digits <> "" -> str_all isdecimal_char digits = true ->
  (String.length digits <= 4300)%nat ->
  exists (n : nat) ranked,
    int (Some digits) = Ok (Z.of_nat n)
    /\ analyze_traffic_data_by traffic_data COUNTRY_KEY true = Ok ranked
    /\ main_body traffic_data {| stdin := line :: rest; trace := tr; figure := fig |}
       = (Ok tt,
          line_read rest (tr ++ (count_line <$> take n ranked) ++ [Print ""]) fig).
Proof.
  intros Hkeys Ht Hws Hblank Hsp Hne Hdec Hlen.
  destruct (int_str_decimal digits Hne Hdec Hlen) as [n Hn].
  destruct (analyze_grouping _ _ Hkeys) as (d & Hd & _).
  pose proof (analyze_ranked _ _ _ Hd) as Hr.
  exists n, (sorted Nat.leb (fun x : string * gset string => size x.2) true d).
  split; [exact Hn|]. split; [exact Hr|].
  assert (Hl : lstrip digits = digits).
  { destruct digits as [|c s]; [done|]. simpl in *.
    apply andb_true_iff in Hdec as [Hc _]. by rewrite (isdecimal_not_space c Hc). }
  assert (Hv : get_valid_action DISPATCH_DICT
                 {| stdin := line :: rest; trace := tr; figure := fig |}
               = (Ok ("top_countries", Some digits), line_read rest tr fig)).
  { rewrite (get_valid_action_argument _ _ _ _ _ "top_countries" digits).
    - by rewrite decimal_isnumeric.
    - rewrite Ht. simpl. discriminate.
    - rewrite Hsp, Ht. apply startswith_app.
    - rewrite Ht. by apply split_top_countries. }
  unfold main_body. rewrite Hv.
  change (dict_getitem DISPATCH_DICT "top_countries")
    with (Ok (A := handler)
            (fun data_dict num =>
               M_bind _ _ (fun n => top_n_countries data_dict (Some n))
                 (lift (int num)))).
  unfold mbind, M_bind, lift. simpl. rewrite Hn.
  by rewrite (top_n_countries_run _ _ _ _ Hr).
Qed.

(** X15. [get_all_countries] and [top_n_countries] print all or nothing:
    when some record lacks the country or the ship name, both raise the
    KeyError of the aggregation (naming one of these two fields) before
    anything is written, whatever the count asked for. *)
Theorem country_handlers_print_nothing_on_failure (traffic_data : list record)
    (w : World) :
  ~ Forall (fun ship => has_key COUNTRY_KEY ship /\ has_key SHIP_NAME_KEY ship)
      traffic_data ->
  exists key,
    (key = COUNTRY_KEY \/ key = SHIP_NAME_KEY)
    /\ get_all_countries traffic_data w = (Raise (KeyError key), w)
    /\ (forall num, top_n_countries traffic_data num w = (Raise (KeyError key), w)).
Proof.
  intros Hn.
  destruct (Forall_first_failure _ _ Hn) as (pre & ship & post & -> & Hpre & Hship).
  exists (if decide (has_key COUNTRY_KEY ship) then SHIP_NAME_KEY else COUNTRY_KEY).
  split; [destruct (decide _); auto|]. split; [|intros num].
  - unfold get_all_countries, mbind, M_bind, lift.
    by rewrite (analyze_incomplete _ _ _ _ _ Hpre Hship).
  - unfold top_n_countries, mbind, M_bind, lift.
    by rewrite (analyze_incomplete _ _ _ _ _ Hpre Hship).
Qed.

Lemma dict_getitem_Raise {V} (d : dict V) k e :
  dict_getitem d k = Raise e -> e = KeyError k /\ k ∉ keys d.
Proof.
  induction d as [|[k' v] d IH]; simpl.
  - intros [= <-]. split; [done|]. apply not_elem_of_nil.
  - destruct (decide (k = k')) as [->|Hne]; [done|].
    intros [-> Hk]%IH. split; [done|]. by apply not_elem_of_cons.
Qed.

Lemma get_valid_action_param {V} (dispatcher : dict V) w action param w1 :
  get_valid_action dispatcher w = (Ok (action, param), w1) ->
  match param with
  | Some p => isnumeric p = true
  | None => action <> "top_countries"
  end.
Proof.
  destruct w as [[|line rest] tr fig]; [by rewrite get_valid_action_EOF|].
  destruct (get_valid_action_cases dispatcher line rest tr fig)
    as [->|[[p ->]|[(tok & p & Hp & ->)|[->|[Hn ->]]]]]; by intros [= <- <- <-].
Qed.

Lemma well_formed_complete data by_key :
  by_key = COUNTRY_KEY \/ by_key = TYPE_KEY ->
  Forall well_formed data ->
  Forall (fun ship => has_key by_key ship /\ has_key SHIP_NAME_KEY ship) data.
Proof.
  intros Hk Hwf. eapply Forall_impl; [exact Hwf|].
  intros ship (Hc & Ht & [m (Hn & _)] & _). split.
  - by destruct Hk as [->| ->].
  - by exists m.1.1.
Qed.

Lemma well_formed_fields data :
  Forall well_formed data ->
  Forall (has_key SHIP_NAME_KEY) data
  /\ (exists markers, Forall2 marker_of data markers)
  /\ (exists speeds, Forall2 (float_field SPEED_KEY) data speeds).
Proof.
  induction 1 as [|ship data (_ & _ & [m Hm] & [v Hv]) _ (IH1 & [ms IH2] & [vs IH3])].
  - split_and!; [done|by exists []|by exists []].
  - split_and!.
    + constructor; [|done]. destruct Hm as [Hn _]. by exists m.1.1.
    + exists (m :: ms). by constructor.
    + exists (v :: vs). by constructor.
Qed.

(** X14. On a non-empty data set of well-formed records, a turn of the loop
    is left by an exception in three cases only: the input is exhausted
    (EOFError, from the validator or from a handler's own question), the
    first field of a "top_countries ..." line is no registered command
    (KeyError from the dispatch table), or the argument is numeric and yet
    not accepted by [int] (its ValueError).  No command fails on the data,
    and [int] is never handed a missing argument. *)
Theorem main_body_on_well_formed_data (traffic_data : list record) (w : World)
    (e : exn) (w' : World) :
  traffic_data <> [] -> Forall well_formed traffic_data ->
  main_body traffic_data w = (Raise e, w') ->
  e = EOFError
  \/ (exists tok, e = KeyError tok /\ tok ∉ DISPATCH_KEYS)
  \/ (exists param msg,
        e = ValueError msg /\ isnumeric param = true /\ int (Some param) = Raise e).
Proof.
  intros Hne Hwf.
  pose proof (well_formed_complete _ COUNTRY_KEY ltac:(by left) Hwf) as Hcountry.
  pose proof (well_formed_complete _ TYPE_KEY ltac:(by right) Hwf) as Htype.
  destruct (well_formed_fields _ Hwf) as (Hnames & [markers Hm] & [speeds Hs]).
  destruct (analyze_grouping _ _ Hcountry) as (dc & Hdc & _).
  destruct (analyze_grouping _ _ Htype) as (dt & Hdt & _).
  unfold main_body.
  destruct (get_valid_action DISPATCH_DICT w) as [[[action param]|e1] w1] eqn:Hv.
  2:{ destruct w as [[|line rest] tr fig].
      - rewrite get_valid_action_EOF in Hv. injection Hv as <- <-.
        intros [= <- <-]. by left.
      - by destruct (get_valid_action_Raise _ _ _ _ _ _ _ Hv) as [[msg ->] _]. }
  apply get_valid_action_param in Hv.
  unfold mbind, M_bind, lift.
  destruct (dict_getitem DISPATCH_DICT action) as [h|e1] eqn:Hg.
  2:{ intros [= <- <-]. apply dict_getitem_Raise in Hg as [-> Hk].
      right. left. by exists action. }
  revert action h Hg Hv.
  apply (dispatch_cases
           (fun action h =>
              match param with
              | Some p => isnumeric p = true
              | None => action <> "top_countries"
              end ->
              h traffic_data param w1 = (Raise e, w') -> _)).
  - intros _. by rewrite print_functions_run.
  - intros _. unfold get_all_countries, mbind, M_bind, lift. rewrite Hdc.
    by rewrite print_iterable_run.
  - destruct param as [p|]; [|done]. intros Hp.
    unfold M_bind, lift.
    destruct (int (Some p)) as [n|e1] eqn:Hint.
    + unfold top_n_countries, mbind, M_bind, lift. simpl.
      rewrite (analyze_ranked _ _ _ Hdc). by rewrite print_iterable_value_run.
    + intros [= <- <-]. do 2 right. exists p.
      destruct (int_str_Raise p e1 Hint) as [msg ->]. by exists msg.
  - intros _. unfold get_all_ship_types, mbind, M_bind, lift.
    rewrite (analyze_ranked _ _ _ Hdt). by rewrite print_iterable_value_run.
  - intros _. destruct w1 as [[|q rest] tr fig].
    + unfold search_ship_by_name, mbind at 1, M_bind at 1, lift.
      rewrite ships_names_of_Ok by done. intros [= <- <-]. by left.
    + by rewrite (search_ship_by_name_run _ _ _ _ _ _ (ships_names_of_Ok _ Hnames)).
  - intros _. destruct w1 as [[|name rest] tr fig].
    + intros [= <- <-]. by left.
    + unfold save_speed_histogram, mbind at 1 2 3 4, M_bind, lift, input, readline, emit.
      simpl. rewrite (mapM_Ok _ _ speeds); [done|].
      eapply Forall2_impl; [exact Hs|]. apply getitem_float.
  - intros _. destruct (mapM_markers _ _ Hm) as (Hloc & Hlat & Hlon).
    unfold draw_plot_map, mbind at 1 2 3, M_bind, lift. rewrite Hloc, Hlat, Hlon.
    destruct Hm as [|ship m data ms _ _]; [done|]. done.
Qed.

(** X16. A turn on "search_ship" takes two lines: the command and, after
    the prompt, the next line as the query, whatever that line is; it is not
    read as a command.  The names searched are those of all the records, and
    the turn reports the results of the query or "No results found". *)
Theorem search_ship_command_takes_the_next_line (traffic_data : list record)
    (line query : string) rest tr fig :
  strip line = "search_ship" ->
  Forall (has_key SHIP_NAME_KEY) traffic_data ->
  main_body traffic_data
    {| stdin := line :: query :: rest; trace := tr; figure := fig |}
  = (Ok tt,
     {| stdin := rest;
        trace := tr ++ Prompt "Enter the search query: "
                    :: search_report
                         (search_results query
                            (list_to_set (field_values SHIP_NAME_KEY traffic_data)));
        figure := fig |}).
Proof.
  intros Hs Hk. unfold main_body.
  rewrite get_valid_action_command; rewrite Hs; [|done..].
  change (dict_getitem DISPATCH_DICT "search_ship")
    with (Ok (A := handler) (fun data_dict _ => search_ship_by_name data_dict)).
  simpl. unfold mbind, M_bind, lift, line_read.
  by rewrite (search_ship_by_name_run _ _ _ _ _ _ (ships_names_of_Ok _ Hk)).
Qed.

(** X17. The lines accepted as a command without a parameter are exactly
    those whose trimmed text is a key of the dispatch table other than
    "top_countries"; each of them is then found in the table. *)
Theorem registered_commands_are_accepted (line : string) rest tr fig :
  (get_valid_action DISPATCH_DICT {| stdin := line :: rest; trace := tr; figure := fig |}
   = (Ok (strip line, None), line_read rest tr fig)
   <-> strip line ∈ DISPATCH_KEYS /\ strip line <> "top_countries")
  /\ (strip line ∈ DISPATCH_KEYS ->
      exists h, dict_getitem DISPATCH_DICT (strip line) = Ok h).
Proof.
  split.
  - split.
    + intros Hv. destruct (decide (strip line = "")) as [Hb|Hne].
      { by rewrite get_valid_action_blank in Hv. }
      destruct (str_in " " (strip line) && startswith (strip line) "top_countries")
        eqn:Hrule.
      * pose proof Hrule as [Hsp _]%andb_true_iff.
        destruct (split_stripped_two line Hsp) as (tok & param & Hsplit & _).
        rewrite (get_valid_action_argument _ _ _ _ _ tok param) in Hv by done.
        by destruct (isnumeric param).
      * rewrite get_valid_action_command in Hv by done.
        destruct (negb (dict_in (strip line) DISPATCH_DICT)
                  || bool_decide (strip line = "top_countries")) eqn:Hcmd; [done|].
        apply orb_false_iff in Hcmd as [Hin Htop].
        apply negb_false_iff, dict_in_true in Hin.
        by apply bool_decide_eq_false in Htop.
    + intros [Hin Htop]. unfold DISPATCH_KEYS in Hin.
      repeat (apply elem_of_cons in Hin as [Heq|Hin];
              [rewrite get_valid_action_command; rewrite Heq in *; done|]).
      by apply elem_of_nil in Hin.
  - intros Hin. apply dict_getitem_in. by rewrite keys_DISPATCH_DICT.
Qed.

End commands.

(** ** Runs on the demo data *)

#[local] Existing Instance demo_externals.

(** C4 as stated fails on a blank line: the validation fails and nothing is
    reported. *)
Lemma blank_line_fails_without_diagnostic :
  get_valid_action DISPATCH_DICT (console ["   "; "help"])
  = (Raise (ValueError "Empty input"), console ["help"])
  /\ main_body demo_data (console ["   "; "help"]) = (Ok tt, console ["help"])
  /\ trace (console ["help"]) = [].
Proof. split_and!; run. Qed.

Lemma validation_failure_is_caught_witness :
  get_valid_action DISPATCH_DICT (console ["sink_ships"; "help"])
  = (Raise (ValueError "Command is not in dispatcher"),
     line_read ["help"] [Print "Unknown command sink_ships"] [])
  /\ main_body demo_data (console ["sink_ships"; "help"])
     = (Ok tt, line_read ["help"] [Print "Unknown command sink_ships"] [])
  /\ (forall fuel,
        main_loop (S fuel) demo_data (console ["sink_ships"; "help"])
        = main_loop fuel demo_data
            (line_read ["help"] [Print "Unknown command sink_ships"] []))
  /\ stdin (line_read (H := demo_externals) ["help"]
              [Print "Unknown command sink_ships"] []) = ["help"]
  /\ figure (line_read (H := demo_externals) ["help"]
               [Print "Unknown command sink_ships"] []) = []
  /\ strip "sink_ships" <> ""
  /\ trace (line_read (H := demo_externals) ["help"]
              [Print "Unknown command sink_ships"] [])
     = [] ++ [Print ("Unknown command " +:+ strip "sink_ships")].
Proof.
  assert (Hv : get_valid_action DISPATCH_DICT (console ["sink_ships"; "help"])
               = (Raise (ValueError "Command is not in dispatcher"),
                  line_read ["help"] [Print "Unknown command sink_ships"] []))
    by run.
  split; [exact Hv|].
  destruct (proj2 (validation_failure_is_caught demo_data "sink_ships" ["help"] [] [])
              _ _ Hv) as (Hb & Hl & Hs & Hf & _).
  split_and!; [exact Hb|exact Hl|exact Hs|exact Hf|discriminate|run].
Defined.

(** The validator lets through what the dispatcher cannot run: a first
    field that only begins with "top_countries" is looked up in the table
    and the KeyError leaves the loop, and a numeric character that is no
    decimal digit (superscript two, code point 178) reaches [int], whose
    ValueError is raised outside the [try]. *)
Example unregistered_first_field_leaves_the_loop :
  main_body demo_data (console ["top_countriesX 5"])
  = (Raise (KeyError "top_countriesX"), console []).
Proof. run. Qed.

Example non_decimal_numeric_leaves_the_loop :
  main_body demo_data (console ["top_countries " +:+ String "178" ""])
  = (Raise (int_literal (String "178" "")), console []).
Proof. run. Qed.

(** What [int] makes of the texts it can be handed and of a few others: the
    message quotes the text, the separators FS..US are not skipped though
    [strip] removes them, NBSP is, and a run of 4301 digits is refused. *)
Example int_messages :
  int_literal (String "178" "")
  = ValueError ("invalid literal for int() with base 10: '" +:+ String "178" "'")
  /\ int_str (String "028" "5") = Raise (int_literal (String "028" "5"))
  /\ strip (String "028" "5") = "5"
  /\ int_str (String "160" " 1_000 ") = Ok 1000
  /\ int_str "-12" = Ok (-12)
  /\ int_str "1__0" = Raise (int_literal "1__0")
  /\ int_str (string_of_list_ascii (replicate 4300 "5"%char))
     = Ok (Z.of_N (N.div (10 ^ 4300 - 1) 9 * 5))
  /\ int_str (string_of_list_ascii (replicate 4301 "5"%char))
     = Raise (int_too_long 4301).
Proof. split_and!; vm_compute; reflexivity. Qed.

Example too_many_digits_leave_the_loop :
  main_body demo_data
    (console ["top_countries " +:+ string_of_list_ascii (replicate 4301 "5"%char)])
  = (Raise (int_too_long 4301), console []).
Proof. run. Qed.

(** The empty text is no registered command name either; the rule for
    blank lines takes it before the command rule is reached. *)
Example empty_text_gets_no_unknown_command :
  ("" ∉ DISPATCH_KEYS)
  /\ get_valid_action DISPATCH_DICT (console [""])
     = (Raise (ValueError "Empty input"), console []).
Proof.
  split; [|run].
  unfold DISPATCH_KEYS. intros Hin.
  repeat (apply elem_of_cons in Hin as [Heq|Hin]; [discriminate Heq|]).
  by apply elem_of_nil in Hin.
Qed.

(** Nor is every line that is no command name turned down: the argument rule
    takes these. *)
Example argument_lines_are_no_command_names :
  ("top_countries 5" ∉ DISPATCH_KEYS)
  /\ get_valid_action DISPATCH_DICT (console ["top_countries 5"])
     = (Ok ("top_countries", Some "5"), console [])
  /\ get_valid_action DISPATCH_DICT (console ["top_countries abc"])
     = (Raise (ValueError "Parameter is not integer"),
        line_read [] [Print "Unknown parameter abc"] []).
Proof.
  split_and!; [|run..].
  unfold DISPATCH_KEYS. intros Hin.
  repeat (apply elem_of_cons in Hin as [Heq|Hin]; [discriminate Heq|]).
  by apply elem_of_nil in Hin.
Qed.

(** C5.  The claim: a trimmed text that matches no registered command name
    fails validation with the "unknown command" diagnostic.  The code breaks
    it at "top_countriesX 5".  Neither the text nor its first field is a key
    of the dispatch table, and the first field is not the command
    "top_countries"; still the validator returns that field as the command
    with "5" as its parameter and writes nothing.  The lookup of the field in
    the table then raises KeyError, which the loop does not catch: the
    session ends there, with the next line unread. *)
Lemma unregistered_text_passes_validation :
  strip "top_countriesX 5" = "top_countriesX 5"
  /\ ("top_countriesX 5" ∉ DISPATCH_KEYS)
  /\ ("top_countriesX" ∉ DISPATCH_KEYS)
  /\ get_valid_action DISPATCH_DICT (console ["top_countriesX 5"; "help"])
     = (Ok ("top_countriesX", Some "5"), console ["help"])
  /\ trace (console ["help"]) = []
  /\ main_body demo_data (console ["top_countriesX 5"; "help"])
     = (Raise (KeyError "top_countriesX"), console ["help"])
  /\ main 5 demo_data (console ["top_countriesX 5"; "help"])
     = Some (KeyError "top_countriesX", line_read ["help"] [Print welcome] []).
Proof.
  split_and!; [run| | |run..];
    unfold DISPATCH_KEYS; intros Hin;
    repeat (apply elem_of_cons in Hin as [Heq|Hin]; [discriminate Heq|]);
    by apply elem_of_nil in Hin.
Qed.

Lemma unknown_command_is_rejected_witness :
  (strip "  top_countries " = "top_countries"
   \/ (strip "  top_countries " <> ""
       /\ str_in " " (strip "  top_countries ")
          && startswith (strip "  top_countries ") "top_countries" = false
       /\ strip "  top_countries " ∉ DISPATCH_KEYS))
  /\ get_valid_action DISPATCH_DICT (console ["  top_countries "])
     = (Raise (ValueError "Command is not in dispatcher"),
        line_read [] [Print "Unknown command top_countries"] [])
  /\ main_body demo_data (console ["  top_countries "])
     = (Ok tt, line_read [] [Print "Unknown command top_countries"] []).
Proof.
  assert (Hc : strip "  top_countries " = "top_countries"
               \/ (strip "  top_countries " <> ""
                   /\ str_in " " (strip "  top_countries ")
                      && startswith (strip "  top_countries ") "top_countries" = false
                   /\ strip "  top_countries " ∉ DISPATCH_KEYS))
    by (left; run).
  split; [exact Hc|].
  exact (unknown_command_is_rejected demo_data "  top_countries " [] [] [] Hc).
Defined.

(** C6 as stated fails when the whitespace after the command is a tab: the
    remainder "5" is all decimal digits, and the line is turned down as an
    unknown command. *)
Lemma tab_separated_argument_is_unknown_command :
  blank (String "009" "") = true
  /\ str_all isdecimal_char "5" = true
  /\ get_valid_action DISPATCH_DICT (console ["top_countries" +:+ String "009" "5"])
     = (Raise (ValueError "Command is not in dispatcher"),
        line_read []
          [Print ("Unknown command " +:+ "top_countries" +:+ String "009" "5")] []).
Proof. split_and!; run. Qed.

Lemma top_countries_argument_is_checked_witness :
  strip "top_countries   12 " = "top_countries" +:+ "   " +:+ "12"
  /\ "   " <> "" /\ blank "   " = true
  /\ "12" <> "" /\ lstrip "12" = "12" /\ isascii "12" = true
  /\ str_in " " (strip "top_countries   12 ") = true
  /\ get_valid_action DISPATCH_DICT (console ["top_countries   12 "; "help"])
     = (Ok ("top_countries", Some "12"), console ["help"]).
Proof.
  split_and!; [run|discriminate|run|discriminate|run|run|run|].
  exact (top_countries_argument_is_checked demo_data "top_countries   12 "
           "   " "12" ["help"] [] [] eq_refl ltac:(discriminate) eq_refl
           ltac:(discriminate) eq_refl eq_refl eq_refl).
Defined.

(** The specification's example: "top_countries abc". *)
Example top_countries_abc :
  main_body demo_data (console ["top_countries abc"])
  = (Ok tt, line_read [] [Print "Unknown parameter abc"] []).
Proof. run. Qed.

Lemma top_n_countries_prints_first_n_witness :
  Forall (fun ship => has_key COUNTRY_KEY ship /\ has_key SHIP_NAME_KEY ship) demo_data
  /\ 0 < 3
  /\ exists grouping ranked,
       analyze_traffic_data_by demo_data COUNTRY_KEY false = Ok grouping
       /\ keys grouping = first_seen (field_values COUNTRY_KEY demo_data)
       /\ ranked ≡ₚ grouping
       /\ StronglySorted (fun x y => (size y.2 <= size x.2)%nat) ranked
       /\ (forall x y, size x.2 = size y.2 ->
             precedes x y ranked <-> precedes x y grouping)
       /\ top_n_countries demo_data (Some 3) (console [])
          = (Ok tt,
             written (console [])
               ((count_line
                   <$> take (Z.to_nat 3
                               `min` length (first_seen
                                               (field_values COUNTRY_KEY demo_data)))
                         ranked)
                ++ [Print ""]))
       /\ top_n_countries demo_data None (console [])
          = top_n_countries demo_data (Some 5) (console []).
Proof.
  assert (Hk : Forall (fun ship => has_key COUNTRY_KEY ship
                                   /\ has_key SHIP_NAME_KEY ship) demo_data).
  { apply demo_data_has_keys. left. }
  split; [exact Hk|]. split; [lia|].
  destruct (top_n_countries_prints_first_n demo_data 3 (console []) Hk ltac:(lia))
    as (grouping & ranked & Hg & Hkeys & _ & Hp & Hs & Ht & Hrun & Hdef).
  exists grouping, ranked. by split_and!.
Defined.

(** The specification's example: US with five ships, UK and FR with three
    (UK met first), DE with one; "top_countries 3". *)
Example top_countries_3 :
  main_body demo_data (console ["top_countries 3"])
  = (Ok tt, line_read [] [Print "US: 5"; Print "UK: 3"; Print "FR: 3"; Print ""] []).
Proof. run. Qed.

(** More asked for than there are countries: all four are printed. *)
Example top_countries_9 :
  main_body demo_data (console ["top_countries 9"])
  = (Ok tt, line_read []
              [Print "US: 5"; Print "UK: 3"; Print "FR: 3"; Print "DE: 1"; Print ""] []).
Proof. run. Qed.

Lemma get_all_countries_prints_sorted_witness :
  Forall (fun ship => has_key COUNTRY_KEY ship /\ has_key SHIP_NAME_KEY ship) demo_data
  /\ exists countries,
       get_all_countries demo_data (console [])
       = (Ok tt, written (console []) ((Print <$> countries) ++ [Print ""]))
       /\ StronglySorted (fun a b => String.ltb a b = true) countries
       /\ (forall c, c ∈ countries <->
             exists ship, ship ∈ demo_data /\ ship !! COUNTRY_KEY = Some c).
Proof.
  assert (Hk : Forall (fun ship => has_key COUNTRY_KEY ship
                                   /\ has_key SHIP_NAME_KEY ship) demo_data).
  { apply demo_data_has_keys. left. }
  split; [exact Hk|].
  destruct (get_all_countries_prints_sorted demo_data (console []) Hk)
    as (countries & Hrun & Hs & Hm & _).
  exists countries. split_and!; [exact Hrun|exact Hs|exact Hm].
Defined.

(** The specification's example: Zeta, Alpha, Mu come out as Alpha, Mu,
    Zeta. *)
Example show_countries_zeta_alpha_mu :
  main_body [ship "Zeta" "Cargo" "ELBE"; ship "Alpha" "Tug" "AVON";
             ship "Mu" "Cargo" "TYNE"; ship "Alpha" "Cargo" "OHIO"]
    (console ["show_countries"])
  = (Ok tt, line_read [] [Print "Alpha"; Print "Mu"; Print "Zeta"; Print ""] []).
Proof. run. Qed.

(** [draw_map] on no data and on the demo data. *)
Example draw_map_empty :
  main_body [] (console ["draw_map"]) = (Raise StatisticsError, console []).
Proof. run. Qed.

Example draw_map_demo :
  exists markers,
    main_body demo_data (console ["draw_map"])
    = (Ok tt, line_read [] [SaveMap "ship_map.html" (50, 4) markers] [])
    /\ length markers = length demo_data.
Proof.
  exists ((fun ship => (default "" (ship !! SHIP_NAME_KEY), 50, 4)) <$> demo_data).
  split; run.
Qed.

(** ** More runs on the demo data *)

Lemma ship_fields country type name :
  ship country type name !! COUNTRY_KEY = Some country
  /\ ship country type name !! TYPE_KEY = Some type
  /\ ship country type name !! SHIP_NAME_KEY = Some name
  /\ ship country type name !! SPEED_KEY = Some "12"
  /\ ship country type name !! LATITUDE_KEY = Some "50"
  /\ ship country type name !! LONGITUDE_KEY = Some "4".
Proof. split_and!; run. Defined.

Lemma ship_marker country type name :
  marker_of (ship country type name) (name, 50, 4).
Proof.
  destruct (ship_fields country type name) as (_ & _ & Hn & _ & Hlat & Hlon).
  split_and!; [exact Hn|exists "50"|exists "4"]; (split; [done|run]).
Defined.

Lemma ship_speed country type name :
  float_field SPEED_KEY (ship country type name) 12.
Proof.
  destruct (ship_fields country type name) as (_ & _ & _ & Hs & _).
  exists "12". split; [exact Hs|run].
Defined.

Lemma ship_well_formed country type name : well_formed (ship country type name).
Proof.
  destruct (ship_fields country type name) as (Hc & Ht & _).
  split_and!; [by exists country|by exists type| |].
  - exists (name, 50, 4). apply ship_marker.
  - exists 12. apply ship_speed.
Defined.

Lemma demo_data_well_formed : Forall well_formed demo_data.
Proof. repeat constructor; apply ship_well_formed. Defined.

Lemma demo_data_markers : Forall2 marker_of demo_data demo_markers.
Proof. repeat constructor; apply ship_marker. Defined.

Lemma demo_data_speeds : Forall2 (float_field SPEED_KEY) demo_data (replicate 13 12).
Proof. repeat constructor; apply ship_speed. Defined.

Lemma analyze_succeeds_iff_records_complete_witness :
  Forall (fun s => has_key COUNTRY_KEY s /\ has_key SHIP_NAME_KEY s)
    [ship "UK" "Cargo" "AVON"]
  /\ ~ (has_key COUNTRY_KEY ({[ SHIP_NAME_KEY := "TYNE" ]} : record)
        /\ has_key SHIP_NAME_KEY ({[ SHIP_NAME_KEY := "TYNE" ]} : record))
  /\ analyze_traffic_data_by
       ([ship "UK" "Cargo" "AVON"] ++ {[ SHIP_NAME_KEY := "TYNE" ]} :: demo_data)
       COUNTRY_KEY true
     = Raise (KeyError COUNTRY_KEY).
Proof.
  assert (Hpre : Forall (fun s => has_key COUNTRY_KEY s /\ has_key SHIP_NAME_KEY s)
                   [ship "UK" "Cargo" "AVON"]).
  { repeat constructor; eexists; apply ship_fields. }
  assert (Hbad : ~ (has_key COUNTRY_KEY ({[ SHIP_NAME_KEY := "TYNE" ]} : record)
                    /\ has_key SHIP_NAME_KEY ({[ SHIP_NAME_KEY := "TYNE" ]} : record))).
  { intros [[c Hc] _]. by vm_compute in Hc. }
  split; [exact Hpre|]. split; [exact Hbad|].
  exact (proj2 (analyze_succeeds_iff_records_complete
                  ([ship "UK" "Cargo" "AVON"] ++ {[ SHIP_NAME_KEY := "TYNE" ]} :: demo_data)
                  COUNTRY_KEY true)
           [ship "UK" "Cargo" "AVON"] {[ SHIP_NAME_KEY := "TYNE" ]} demo_data
           eq_refl Hpre Hbad).
Defined.

Lemma analyze_counts_distinct_names_witness :
  exists d,
    analyze_traffic_data_by demo_data COUNTRY_KEY true = Ok d
    /\ forall k g, (k, g) ∈ d ->
         g = list_to_set (field_values SHIP_NAME_KEY
                            (filter (fun ship : record => ship !! COUNTRY_KEY = Some k)
                               demo_data))
         /\ (1 <= size g
                <= length (filter (fun ship : record => ship !! COUNTRY_KEY = Some k)
                             demo_data))%nat.
Proof.
  destruct (analyze_grouping demo_data COUNTRY_KEY
              (demo_data_has_keys COUNTRY_KEY ltac:(left))) as (d & Hd & _).
  exists (sorted Nat.leb (fun x : string * gset string => size x.2) true d).
  split; [by apply analyze_ranked|].
  exact (analyze_counts_distinct_names demo_data COUNTRY_KEY true _
           (analyze_ranked _ _ _ Hd)).
Defined.

(** The repeated US record: five names for six records. *)
Example analyze_demo_US_counted_once :
  length (filter (fun ship : record => ship !! COUNTRY_KEY = Some "US") demo_data)
  = 6%nat
  /\ (fun d => size <$> (filter (fun p => p.1 = "US") d).*2)
       <$> match analyze_traffic_data_by demo_data COUNTRY_KEY false with
           | Ok d => Some d
           | Raise _ => None
           end
     = Some [5%nat].
Proof. split; vm_compute; reflexivity. Qed.

Lemma get_all_ship_types_prints_every_type_witness :
  Forall (fun ship => has_key TYPE_KEY ship /\ has_key SHIP_NAME_KEY ship) demo_data
  /\ exists grouping ranked,
       analyze_traffic_data_by demo_data TYPE_KEY false = Ok grouping
       /\ keys grouping = first_seen (field_values TYPE_KEY demo_data)
       /\ ranked ≡ₚ grouping
       /\ StronglySorted (fun x y => (size y.2 <= size x.2)%nat) ranked
       /\ (forall x y, size x.2 = size y.2 ->
             precedes x y ranked <-> precedes x y grouping)
       /\ get_all_ship_types demo_data (console [])
          = (Ok tt, written (console []) ((count_line <$> ranked) ++ [Print ""])).
Proof.
  assert (Hk : Forall (fun ship => has_key TYPE_KEY ship
                                   /\ has_key SHIP_NAME_KEY ship) demo_data).
  { apply demo_data_has_keys. right. left. }
  split; [exact Hk|].
  exact (get_all_ship_types_prints_every_type demo_data (console []) Hk).
Defined.

(** Cargo has seven names, Tug four, Tanker two. *)
Example ships_by_types_demo :
  main_body demo_data (console ["ships_by_types"])
  = (Ok tt, line_read [] [Print "Cargo: 7"; Print "Tug: 4"; Print "Tanker: 2";
                          Print ""] []).
Proof. run. Qed.

Lemma help_lists_the_dispatch_table_witness :
  strip "  help " = "help"
  /\ main_body demo_data (console ["  help "; "draw_map"])
     = (Ok tt,
        line_read ["draw_map"]
          ([] ++ [Print (String "010" "Available commands:");
                  Print "help"; Print "show_countries";
                  Print "top_countries  <num_countries>"; Print "ships_by_types";
                  Print "search_ship"; Print "speed_histogram"; Print "draw_map";
                  Print ""]) []).
Proof.
  assert (Hs : strip "  help " = "help") by run.
  split; [exact Hs|].
  exact (proj1 (help_lists_the_dispatch_table demo_data "  help " ["draw_map"] [] [] Hs)).
Defined.

Lemma save_speed_histogram_saves_png_witness :
  Forall2 (float_field SPEED_KEY) demo_data (replicate 13 12)
  /\ save_speed_histogram demo_data (console ["speeds"; "help"])
     = (Ok tt,
        {| stdin := ["help"];
           trace := [] ++ [Prompt "What's the file name should be? ";
                           SaveFig ("speeds" +:+ ".png")
                             ([] ++ [speed_histogram (replicate 13 12)]);
                           Print ("The ship speed histogram was saved as "
                                  +:+ "speeds" +:+ ".png")];
           figure := [] ++ [speed_histogram (replicate 13 12)] |}).
Proof.
  split; [exact demo_data_speeds|].
  exact (save_speed_histogram_saves_png demo_data (replicate 13 12) "speeds"
           ["help"] [] [] demo_data_speeds).
Defined.

(** Two histograms in one session: the second file shows both. *)
Example speed_histogram_twice :
  main_loop 3 demo_data (console ["speed_histogram"; "a"; "speed_histogram"; "b"])
  = Some (EOFError,
          line_read []
            [Prompt "What's the file name should be? ";
             SaveFig "a.png" [speed_histogram (replicate 13 12)];
             Print "The ship speed histogram was saved as a.png";
             Prompt "What's the file name should be? ";
             SaveFig "b.png" [speed_histogram (replicate 13 12);
                              speed_histogram (replicate 13 12)];
             Print "The ship speed histogram was saved as b.png"]
            [speed_histogram (replicate 13 12); speed_histogram (replicate 13 12)]).
Proof. run. Qed.

Lemma save_speed_histogram_fails_after_prompt_witness :
  Forall2 (float_field SPEED_KEY) [ship "UK" "Cargo" "AVON"] [12]
  /\ (forall v, ~ float_field SPEED_KEY ({[ SHIP_NAME_KEY := "TYNE" ]} : record) v)
  /\ exists e,
       save_speed_histogram
         ([ship "UK" "Cargo" "AVON"] ++ {[ SHIP_NAME_KEY := "TYNE" ]} :: [])
         {| stdin := "speeds" :: ["help"]; trace := []; figure := [] |}
       = (Raise e,
          {| stdin := ["help"];
             trace := [] ++ [Prompt "What's the file name should be? "];
             figure := [] |})
       /\ (({[ SHIP_NAME_KEY := "TYNE" ]} : record) !! SPEED_KEY = None ->
           e = KeyError SPEED_KEY).
Proof.
  assert (Hpre : Forall2 (float_field SPEED_KEY) [ship "UK" "Cargo" "AVON"] [12]).
  { repeat constructor. apply ship_speed. }
  assert (Hbad : forall v,
             ~ float_field SPEED_KEY ({[ SHIP_NAME_KEY := "TYNE" ]} : record) v).
  { intros v (s & Hs & _). by vm_compute in Hs. }
  split; [exact Hpre|]. split; [exact Hbad|].
  exact (proj2 (save_speed_histogram_fails_after_prompt
                  ([ship "UK" "Cargo" "AVON"] ++ {[ SHIP_NAME_KEY := "TYNE" ]} :: [])
                  [] [])
           [ship "UK" "Cargo" "AVON"] {[ SHIP_NAME_KEY := "TYNE" ]} [] [12]
           "speeds" ["help"] eq_refl Hpre Hbad).
Defined.

Lemma draw_plot_map_marks_every_record_witness :
  demo_data <> []
  /\ Forall2 marker_of demo_data demo_markers
  /\ draw_plot_map demo_data (console [])
     = (Ok tt,
        written (console [])
          [SaveMap "ship_map.html"
             (fmean demo_markers.*1.*2, fmean demo_markers.*2) demo_markers])
  /\ length demo_markers = length demo_data.
Proof.
  assert (Hne : demo_data <> []) by discriminate.
  split; [exact Hne|]. split; [exact demo_data_markers|].
  exact (draw_plot_map_marks_every_record demo_data demo_markers (console [])
           Hne demo_data_markers).
Defined.

Lemma search_ship_by_name_collects_names_first_witness :
  ~ Forall (has_key SHIP_NAME_KEY) [({[ COUNTRY_KEY := "UK" ]} : record)]
  /\ search_ship_by_name [({[ COUNTRY_KEY := "UK" ]} : record)] (console ["avon"])
     = (Raise (KeyError SHIP_NAME_KEY), console ["avon"]).
Proof.
  assert (Hbad : ~ Forall (has_key SHIP_NAME_KEY) [({[ COUNTRY_KEY := "UK" ]} : record)]).
  { intros [[n Hn] _]%Forall_cons. by vm_compute in Hn. }
  split; [exact Hbad|].
  exact (proj1 (search_ship_by_name_collects_names_first
                  [({[ COUNTRY_KEY := "UK" ]} : record)] (console ["avon"])) Hbad).
Defined.

Lemma get_valid_action_raises_ValueError_or_EOFError_witness :
  get_valid_action DISPATCH_DICT (console []) = (Raise EOFError, console [])
  /\ ((stdin (console []) = [] /\ EOFError = EOFError /\ console [] = console [])
      \/ (stdin (console []) <> []
          /\ (EOFError = ValueError "Empty input"
              \/ EOFError = ValueError "Parameter is not integer"
              \/ EOFError = ValueError "Command is not in dispatcher"))).
Proof.
  assert (Hv : get_valid_action DISPATCH_DICT (console [])
               = (Raise EOFError, console [])) by run.
  split; [exact Hv|].
  exact (get_valid_action_raises_ValueError_or_EOFError DISPATCH_DICT (console [])
           EOFError (console []) Hv).
Defined.

Lemma get_valid_action_accepts_witness :
  get_valid_action DISPATCH_DICT (console ["  draw_map "; "help"])
  = (Ok ("draw_map", None), console ["help"])
  /\ exists line,
       stdin (console ["  draw_map "; "help"]) = line :: stdin (console ["help"])
       /\ trace (console ["help"]) = trace (console ["  draw_map "; "help"])
       /\ figure (console ["help"]) = figure (console ["  draw_map "; "help"])
       /\ strip line <> ""
       /\ "draw_map" = strip line /\ "draw_map" ∈ keys DISPATCH_DICT
       /\ "draw_map" <> "top_countries"
       /\ str_in " " "draw_map" && startswith "draw_map" "top_countries" = false.
Proof.
  assert (Hv : get_valid_action DISPATCH_DICT (console ["  draw_map "; "help"])
               = (Ok ("draw_map", None), console ["help"])) by run.
  split; [exact Hv|].
  exact (get_valid_action_accepts DISPATCH_DICT (console ["  draw_map "; "help"])
           "draw_map" None (console ["help"]) Hv).
Defined.

Lemma top_countries_command_prints_first_n_witness :
  Forall (fun ship => has_key COUNTRY_KEY ship /\ has_key SHIP_NAME_KEY ship) demo_data
  /\ strip "top_countries  2 " = "top_countries" +:+ "  " +:+ "2"
  /\ "  " <> "" /\ blank "  " = true
  /\ str_in " " (strip "top_countries  2 ") = true
  /\ "2" <> "" /\ str_all isdecimal_char "2" = true
  /\ (String.length "2" <= 4300)%nat
  /\ exists (n : nat) ranked,
       int (Some "2") = Ok (Z.of_nat n)
       /\ analyze_traffic_data_by demo_data COUNTRY_KEY true = Ok ranked
       /\ main_body demo_data (console ["top_countries  2 "; "help"])
          = (Ok tt,
             line_read ["help"]
               ([] ++ (count_line <$> take n ranked) ++ [Print ""]) []).
Proof.
  assert (Hk : Forall (fun ship => has_key COUNTRY_KEY ship
                                   /\ has_key SHIP_NAME_KEY ship) demo_data).
  { apply demo_data_has_keys. left. }
  assert (Hs : strip "top_countries  2 " = "top_countries" +:+ "  " +:+ "2") by run.
  assert (Hsp : str_in " " (strip "top_countries  2 ") = true) by run.
  assert (Hl : (String.length "2" <= 4300)%nat) by (simpl; lia).
  split_and!; [exact Hk|exact Hs|discriminate|run|exact Hsp|discriminate|run|exact Hl|].
  exact (top_countries_command_prints_first_n demo_data "top_countries  2 " "  " "2"
           ["help"] [] [] Hk Hs ltac:(discriminate) eq_refl Hsp ltac:(discriminate)
           eq_refl Hl).
Defined.

(** "top_countries 0" is accepted and lists nothing. *)
Example top_countries_0 :
  main_body demo_data (console ["top_countries 0"])
  = (Ok tt, line_read [] [Print ""] []).
Proof. run. Qed.

Lemma main_ends_on_finite_input_witness :
  (length (stdin (console ["help"; "sink_ships"])) < 3)%nat
  /\ exists e w',
       main 3 demo_data (console ["help"; "sink_ships"]) = Some (e, w')
       /\ (forall fuel', (3 <= fuel')%nat ->
             main fuel' demo_data (console ["help"; "sink_ships"]) = Some (e, w'))
       /\ (stdin (console ["help"; "sink_ships"]) = [] -> e = EOFError)
       /\ stdin w' `suffix_of` stdin (console ["help"; "sink_ships"])
       /\ (exists more,
             trace w' = trace (console ["help"; "sink_ships"]) ++ Print welcome :: more)
       /\ figure (console ["help"; "sink_ships"]) `prefix_of` figure w'.
Proof.
  assert (Hlen : (length (stdin (console ["help"; "sink_ships"])) < 3)%nat)
    by (simpl; lia).
  split; [exact Hlen|].
  exact (main_ends_on_finite_input demo_data (console ["help"; "sink_ships"]) 3 Hlen).
Defined.

(** The session "help", "sink_ships" and the end of the input. *)
Example main_help_then_unknown :
  main 3 demo_data (console ["help"; "sink_ships"])
  = Some (EOFError,
          line_read []
            [Print welcome;
             Print (String "010" "Available commands:");
             Print "help"; Print "show_countries";
             Print "top_countries  <num_countries>"; Print "ships_by_types";
             Print "search_ship"; Print "speed_histogram"; Print "draw_map";
             Print ""; Print "Unknown command sink_ships"] []).
Proof. run. Qed.

Lemma main_body_on_well_formed_data_witness :
  demo_data <> [] /\ Forall well_formed demo_data
  /\ main_body demo_data (console ["search_ship"])
     = (Raise EOFError,
        line_read [] [Prompt "Enter the search query: "] [])
  /\ (EOFError = EOFError
      \/ (exists tok, EOFError = KeyError tok /\ tok ∉ DISPATCH_KEYS)
      \/ (exists param msg,
            EOFError = ValueError msg /\ isnumeric param = true
            /\ int (Some param) = Raise EOFError)).
Proof.
  assert (Hne : demo_data <> []) by discriminate.
  assert (Hb : main_body demo_data (console ["search_ship"])
               = (Raise EOFError,
                  line_read [] [Prompt "Enter the search query: "] [])) by run.
  split; [exact Hne|]. split; [exact demo_data_well_formed|]. split; [exact Hb|].
  exact (main_body_on_well_formed_data demo_data (console ["search_ship"]) EOFError
           _ Hne demo_data_well_formed Hb).
Defined.

Lemma country_handlers_print_nothing_on_failure_witness :
  ~ Forall (fun ship => has_key COUNTRY_KEY ship /\ has_key SHIP_NAME_KEY ship)
      [ship "UK" "Cargo" "AVON"; ({[ SHIP_NAME_KEY := "TYNE" ]} : record)]
  /\ exists key,
       (key = COUNTRY_KEY \/ key = SHIP_NAME_KEY)
       /\ get_all_countries
            [ship "UK" "Cargo" "AVON"; ({[ SHIP_NAME_KEY := "TYNE" ]} : record)]
            (console [])
          = (Raise (KeyError key), console [])
       /\ (forall num,
             top_n_countries
               [ship "UK" "Cargo" "AVON"; ({[ SHIP_NAME_KEY := "TYNE" ]} : record)]
               num (console [])
             = (Raise (KeyError key), console [])).
Proof.
  assert (Hbad : ~ Forall (fun ship => has_key COUNTRY_KEY ship
                                       /\ has_key SHIP_NAME_KEY ship)
                     [ship "UK" "Cargo" "AVON";
                      ({[ SHIP_NAME_KEY := "TYNE" ]} : record)]).
  { intros [_ [[[c Hc] _] _]%Forall_cons]%Forall_cons. by vm_compute in Hc. }
  split; [exact Hbad|].
  exact (country_handlers_print_nothing_on_failure _ (console []) Hbad).
Defined.

(** "show_countries" on a data set with a record that has no country. *)
Example show_countries_missing_country :
  main_body [ship "UK" "Cargo" "AVON"; ({[ SHIP_NAME_KEY := "TYNE" ]} : record)]
    (console ["show_countries"])
  = (Raise (KeyError COUNTRY_KEY), console []).
Proof. run. Qed.

Lemma search_ship_command_takes_the_next_line_witness :
  strip " search_ship" = "search_ship"
  /\ Forall (has_key SHIP_NAME_KEY) demo_data
  /\ main_body demo_data
       {| stdin := " search_ship" :: "help" :: ["draw_map"]; trace := [];
          figure := [] |}
     = (Ok tt,
        {| stdin := ["draw_map"];
           trace := [] ++ Prompt "Enter the search query: "
                       :: search_report
                            (search_results "help"
                               (list_to_set (field_values SHIP_NAME_KEY demo_data)));
           figure := [] |}).
Proof.
  assert (Hs : strip " search_ship" = "search_ship") by run.
  assert (Hk : Forall (has_key SHIP_NAME_KEY) demo_data).
  { eapply Forall_impl; [exact demo_data_well_formed|].
    intros s (_ & _ & [m (Hn & _)] & _). by exists m.1.1. }
  split; [exact Hs|]. split; [exact Hk|].
  exact (search_ship_command_takes_the_next_line demo_data " search_ship" "help"
           ["draw_map"] [] [] Hs Hk).
Defined.

(** A query in another letter case finds the ship; "help" typed as a query
    finds nothing. *)
Example search_ship_demo :
  main_loop 3 demo_data (console ["search_ship"; "ohio"; "search_ship"; "help"])
  = Some (EOFError,
          line_read []
            [Prompt "Enter the search query: "; Print "Did you mean any of these?";
             Print "OHIO"; Print "";
             Prompt "Enter the search query: "; Print "No results found"] []).
Proof. run. Qed.
